(** * apizza: the cart, its topping mini-language and its persistence

    A shallow embedding of
      - cmd/cart/cart.go            (package cart: the Cart type and its helpers),
      - cmd/cart.go                 (package cmd: the older cart command),
      - cmd/internal/data/managedb.go (package data: orders in the database),
    and, for the user profile of package dawg, of the behaviour that
    dawg/user_test.go exercises.

    Go strings are byte sequences: they are [string], a list of [ascii]
    bytes.  A Go map is a [gmap].  A method that mutates its receiver takes
    the receiver's state and returns the new one next to its results. *)

From Stdlib Require Import ZArith Ascii String List Bool Lia.
From stdpp Require Import base option list strings gmap fin_maps.

Local Open Scope string_scope.
Local Open Scope list_scope.

(** ** Package strings (Go standard library) *)

Module strings.

(** [strings.HasPrefix(s, prefix)]. *)
Definition HasPrefix (s prefix : string) : bool := String.prefix prefix s.

(** [strings.Contains(s, substr)]: is there an index at which [substr]
    starts. *)
Fixpoint Contains (s substr : string) : bool :=
  String.prefix substr s ||
  match s with
  | EmptyString => false
  | String _ t => Contains t substr
  end.

(** [strings.Split(s, sep)] for a one-byte separator: the fields between
    the separators, in order; a string without separator is its own single
    field, so the result is never empty. *)
Fixpoint Split (s : string) (sep : ascii) : list string :=
  match s with
  | EmptyString => [EmptyString]
  | String c t =>
      if Ascii.eqb c sep then EmptyString :: Split t sep
      else match Split t sep with
           | [] => [String c EmptyString]
           | f :: fs => String c f :: fs
           end
  end.

(** [strings.Join(elems, sep)] for a one-byte separator. *)
Fixpoint Join (elems : list string) (sep : ascii) : string :=
  match elems with
  | [] => EmptyString
  | [f] => f
  | f :: fs => String.append f (String sep (Join fs sep))
  end.

(** Number of bytes of [s] equal to [c]. *)
Fixpoint countByte (s : string) (c : ascii) : nat :=
  match s with
  | EmptyString => 0
  | String d t => (if Ascii.eqb d c then 1 else 0) + countByte t c
  end.

(** One byte of [strings.ToLower]: the letters A-Z move to a-z, every
    other byte stays. *)
Definition lowerByte (c : ascii) : ascii :=
  let n := nat_of_ascii c in
  if (65 <=? n)%nat && (n <=? 90)%nat then ascii_of_nat (n + 32) else c.

(** The UTF-8 bytes of the two runes outside ASCII that Go's
    [unicode.ToLower] sends into ASCII: U+0130, the capital I with a dot, to
    [i], and U+212A, the Kelvin sign, to [k]. *)
Definition isDottedI (c1 c2 : ascii) : bool :=
  (nat_of_ascii c1 =? 196)%nat && (nat_of_ascii c2 =? 176)%nat.

Definition isKelvin (c1 c2 c3 : ascii) : bool :=
  (nat_of_ascii c1 =? 226)%nat && (nat_of_ascii c2 =? 132)%nat &&
  (nat_of_ascii c3 =? 170)%nat.

(** [strings.ToLower(s)].  Go lowers an ASCII string byte by byte and any
    other string rune by rune.  The letters A-Z move to a-z; the two runes
    above move to [i] and [k]; these are the only runes whose lower case is
    in ASCII.  The bytes of every other rune are kept as they are: Go writes
    the lower case of that rune, or U+FFFD for a byte that is no UTF-8, and
    either is again outside ASCII.  So the result is an ASCII word exactly
    when Go's is, and then it is the same word; the code at hand only
    compares the result with such words. *)
Fixpoint ToLower (s : string) : string :=
  match s with
  | EmptyString => EmptyString
  | String c1 t1 =>
      match t1 with
      | EmptyString => String (lowerByte c1) EmptyString
      | String c2 t2 =>
          if isDottedI c1 c2 then String "i" (ToLower t2)
          else
            match t2 with
            | EmptyString => String (lowerByte c1) (ToLower t1)
            | String c3 t3 =>
                if isKelvin c1 c2 c3 then String "k" (ToLower t3)
                else String (lowerByte c1) (ToLower t1)
            end
      end
  end.

(** Drop the first [n] bytes: the slice [s[n:]] (everything when [s] is
    shorter). *)
Fixpoint dropBytes (n : nat) (s : string) : string :=
  match n, s with
  | O, _ => s
  | S k, EmptyString => EmptyString
  | S k, String _ t => dropBytes k t
  end.

(** The scan of [strings.Replace(s, old, new, -1)] for a non-empty [old]:
    left to right, every occurrence of [old] that does not overlap the
    previous one is replaced.  [skip] counts the bytes of the occurrence
    just replaced that are still to be passed over. *)
Fixpoint replaceFrom (old new : string) (skip : nat) (s : string) : string :=
  match s with
  | EmptyString => EmptyString
  | String c t =>
      match skip with
      | S k => replaceFrom old new k t
      | O =>
          if String.prefix old s
          then String.append new (replaceFrom old new (String.length old - 1) t)
          else String c (replaceFrom old new 0 t)
      end
  end.

(** With an empty [old], Go puts [new] in front of every rune and at the
    end; on single-byte runes that is the following. *)
Fixpoint interleave (new s : string) : string :=
  match s with
  | EmptyString => new
  | String c t => String.append new (String c (interleave new t))
  end.

(** [strings.ReplaceAll(s, old, new)], which is
    [strings.Replace(s, old, new, -1)]. *)
Definition ReplaceAll (s old new : string) : string :=
  match old with
  | EmptyString => interleave new s
  | String _ _ => replaceFrom old new 0 s
  end.

End strings.

(** ** Errors

    The error values the modelled code creates or passes on.  [Error] is the
    method of Go's [error] interface, for the errors whose text is written
    in the sources at hand. *)

Inductive error : Type :=
  | ErrNoCurrentOrder                       (* cart.ErrNoCurrentOrder *)
  | ErrOrderNotFound                        (* cart.ErrOrderNotFound *)
  | ErrToppingFormat                        (* errors.New("incorrect topping format") *)
  | ErrNoProductGiven                       (* errors.New("what product are ...") *)
  | ErrCannotFind (product order : string)  (* fmt.Errorf("cannot find '%s' in the '%s' order", ..) *)
  | ErrCannotFindOrder (name : string)      (* fmt.Errorf("cannot find order %s", name) *)
  | ErrBadService                           (* dawg.ErrBadService *)
  | ErrNoServiceMethod                      (* dawg.errNoServiceMethod *)
  | ErrNoAddress                            (* dawg: the user has no address *)
  | ErrVariantNotFound (code : string)      (* dawg: Menu.GetVariant found nothing *)
  | ErrWarning (msg : string)               (* dawg: a validation warning *)
  | ErrCollaborator (msg : string).         (* database, JSON or transport error *)

Definition Error (e : error) : option string :=
  match e with
  | ErrNoCurrentOrder => Some "cart has no current order set"
  | ErrOrderNotFound => Some "could not find that order"
  | ErrToppingFormat => Some "incorrect topping format"
  | ErrNoProductGiven => Some "what product are these toppings being added to"
  | ErrCannotFind p o => Some ("cannot find '" +:+ p +:+ "' in the '" +:+ o +:+ "' order")
  | ErrCannotFindOrder n => Some ("cannot find order " +:+ n)
  | ErrWarning m | ErrCollaborator m => Some m
  | _ => None
  end.

#[global] Instance error_eq_dec : EqDecision error.
Proof. solve_decision. Defined.

(** ** Package dawg: the order model

    The declarations of package dawg are not among the sources; the types
    below carry the fields that the cart reads and writes. *)

Module dawg.

(** Modelled from the spec: the three placement constants of package dawg
    (whole, left half, right half), as the tokens of the ordering API. *)
Definition ToppingFull : string := "1/1".
Definition ToppingLeft : string := "1/2".
Definition ToppingRight : string := "2/2".

(** Modelled from the spec: the service methods, delivery and carryout. *)
Definition Delivery : string := "Delivery".
Definition Carryout : string := "Carryout".

(** Modelled from the spec: an address (street line, city, state code,
    postal code). *)
Record StreetAddr : Type := {
  LineOne : string;
  City : string;
  StateCode : string;
  Zip : string
}.

(** [dawg.StreetAddrFromAddress]: a new StreetAddr holding the four parts
    of the address. *)
Definition StreetAddrFromAddress (a : StreetAddr) : option StreetAddr :=
  Some {| LineOne := LineOne a; City := City a;
          StateCode := StateCode a; Zip := Zip a |}.

(** Modelled from the spec: a product item, with its mapping from topping
    code to placement and amount. *)
Record OrderProduct : Type := {
  Code : string;
  Qty : Z;
  Opts : gmap string (string * string)
}.

Definition ItemCode (p : OrderProduct) : string := Code p.

(** Modelled from the spec: [Item.AddTopping] upserts the placement of the
    topping code; the latest placement wins. *)
Definition AddTopping (p : OrderProduct) (code side amount : string)
  : OrderProduct * option error :=
  ({| Code := Code p; Qty := Qty p;
      Opts := <[code := (side, amount)]> (Opts p) |}, None).

(** Modelled from the spec: an order. *)
Record Order : Type := {
  OrderName : string;
  Address : option StreetAddr;
  ServiceMethod : string;
  Products : list OrderProduct
}.

(** [&dawg.Order{}]. *)
Definition zeroOrder : Order :=
  {| OrderName := ""; Address := None; ServiceMethod := ""; Products := [] |}.

(** [Order.Init] prepares the order's HTTP client, which is no part of
    the model. *)
Definition Init (o : Order) : Order := o.

Definition Name (o : Order) : string := OrderName o.

Definition SetName (o : Order) (name : string) : Order :=
  {| OrderName := name; Address := Address o;
     ServiceMethod := ServiceMethod o; Products := Products o |}.

Definition setAddress (o : Order) (a : option StreetAddr) : Order :=
  {| OrderName := OrderName o; Address := a;
     ServiceMethod := ServiceMethod o; Products := Products o |}.

Definition setProducts (o : Order) (ps : list OrderProduct) : Order :=
  {| OrderName := OrderName o; Address := Address o;
     ServiceMethod := ServiceMethod o; Products := ps |}.

Definition setServiceMethod (o : Order) (m : string) : Order :=
  {| OrderName := OrderName o; Address := Address o;
     ServiceMethod := m; Products := Products o |}.

(** Modelled from the spec: [Order.AddProduct] appends the item. *)
Definition AddProduct (o : Order) (itm : OrderProduct) : Order * option error :=
  (setProducts o (Products o ++ [itm]), None).

(** [dawg.IsWarning]. *)
Definition IsWarning (err : option error) : bool :=
  match err with
  | Some (ErrWarning _) => true
  | _ => false
  end.

(** Modelled from the spec: a menu, the catalog of one store;
    [Menu.GetVariant] resolves a product code or fails. *)
Record Menu : Type := { Variants : gmap string OrderProduct }.

Definition GetVariant (m : Menu) (code : string) : OrderProduct * option error :=
  match Variants m !! code with
  | Some itm => (itm, None)
  | None => ({| Code := ""; Qty := 0; Opts := ∅ |}, Some (ErrVariantNotFound code))
  end.

End dawg.


(** ** Package encoding/json (Go standard library), for orders

    The bytes stored for an order are modelled by what they denote to
    [json.Unmarshal]: nothing (no bytes, or bytes that are no JSON text), or a
    JSON object that gives some of the tagged fields of [dawg.Order].  The
    order's name is no part of the object: the name is the persistence key. *)

Module json.

(** A JSON object for a StreetAddr: each key is present or absent. *)
Record AddrDoc : Type := {
  dLineOne : option string;
  dCity : option string;
  dStateCode : option string;
  dZip : option string
}.

(** The "Address" key of an order object: absent, [null], or an object. *)
Inductive AddrField : Type :=
  | AddrAbsent
  | AddrNull
  | AddrObject (a : AddrDoc).

Record OrderDoc : Type := {
  dServiceMethod : option string;
  dProducts : option (list dawg.OrderProduct);
  dAddress : AddrField
}.

(** A byte slice read from or written to the database. *)
Inductive Bytes : Type :=
  | Nil                       (* the nil slice *)
  | Empty                     (* a slice of length zero *)
  | Malformed                 (* bytes that are no JSON text *)
  | Document (d : OrderDoc).  (* the text of a JSON object *)

(** [len(raw) == 0]. *)
Definition lenIsZero (raw : Bytes) : bool :=
  match raw with
  | Nil | Empty => true
  | _ => false
  end.

(** [raw == nil]. *)
Definition isNil (raw : Bytes) : bool :=
  match raw with
  | Nil => true
  | _ => false
  end.

Definition zeroAddr : dawg.StreetAddr :=
  {| dawg.LineOne := ""; dawg.City := ""; dawg.StateCode := ""; dawg.Zip := "" |}.

(** Decoding an object into a struct: a key that is present overwrites the
    field, a field without key keeps the value it has. *)
Definition decodeAddr (a : AddrDoc) (into : dawg.StreetAddr) : dawg.StreetAddr :=
  {| dawg.LineOne := default (dawg.LineOne into) (dLineOne a);
     dawg.City := default (dawg.City into) (dCity a);
     dawg.StateCode := default (dawg.StateCode into) (dStateCode a);
     dawg.Zip := default (dawg.Zip into) (dZip a) |}.

(** Decoding into a pointer field: [null] sets the pointer to nil; an object
    is decoded into the value the pointer points to, or into a new zero value
    when the pointer is nil. *)
Definition decodeAddrField (f : AddrField) (cur : option dawg.StreetAddr)
  : option dawg.StreetAddr :=
  match f with
  | AddrAbsent => cur
  | AddrNull => None
  | AddrObject a => Some (decodeAddr a (default zeroAddr cur))
  end.

Definition decodeOrder (d : OrderDoc) (o : dawg.Order) : dawg.Order :=
  {| dawg.OrderName := dawg.OrderName o;
     dawg.Address := decodeAddrField (dAddress d) (dawg.Address o);
     dawg.ServiceMethod := default (dawg.ServiceMethod o) (dServiceMethod d);
     dawg.Products := default (dawg.Products o) (dProducts d) |}.

(** [json.Unmarshal(raw, order)]: the order after the call, and the error.
    Input that is no JSON text is refused before anything is stored. *)
Definition Unmarshal (raw : Bytes) (o : dawg.Order) : dawg.Order * option error :=
  match raw with
  | Document d => (decodeOrder d o, None)
  | Nil | Empty => (o, Some (ErrCollaborator "unexpected end of JSON input"))
  | Malformed => (o, Some (ErrCollaborator "invalid character"))
  end.

Definition encodeAddr (a : dawg.StreetAddr) : AddrDoc :=
  {| dLineOne := Some (dawg.LineOne a); dCity := Some (dawg.City a);
     dStateCode := Some (dawg.StateCode a); dZip := Some (dawg.Zip a) |}.

(** [json.Marshal(o)]: every tagged field is written, a nil pointer as
    [null]. *)
Definition Marshal (o : dawg.Order) : Bytes * option error :=
  (Document {| dServiceMethod := Some (dawg.ServiceMethod o);
               dProducts := Some (dawg.Products o);
               dAddress := match dawg.Address o with
                           | None => AddrNull
                           | Some a => AddrObject (encodeAddr a)
                           end |}, None).

End json.

(** ** Package pkg/cache: the key-value store

    Modelled from the spec: the key-value store behind the cart, with [Get],
    [Put], [Delete] and the listing of all keys; a store that fails answers
    every call with its error. *)

Module cache.

Record DataBase : Type := {
  kv : gmap string json.Bytes;
  stamps : gmap string Z;        (* the time stamps kept by UpdateTS *)
  fault : option error
}.

Definition setKv (db : DataBase) (m : gmap string json.Bytes) : DataBase :=
  {| kv := m; stamps := stamps db; fault := fault db |}.

Definition setStamps (db : DataBase) (m : gmap string Z) : DataBase :=
  {| kv := kv db; stamps := m; fault := fault db |}.

(** [db.Get(key)]: a key that is not stored gives the nil slice and no
    error. *)
Definition Get (db : DataBase) (key : string) : json.Bytes * option error :=
  match fault db with
  | Some e => (json.Nil, Some e)
  | None => (default json.Nil (kv db !! key), None)
  end.

Definition Put (db : DataBase) (key : string) (raw : json.Bytes)
  : DataBase * option error :=
  match fault db with
  | Some e => (db, Some e)
  | None => (setKv db (<[key := raw]> (kv db)), None)
  end.

Definition Delete (db : DataBase) (key : string) : DataBase * option error :=
  match fault db with
  | Some e => (db, Some e)
  | None => (setKv db (delete key (kv db)), None)
  end.

(** [db.Map()]: all keys with their values. *)
Definition Map (db : DataBase) : gmap string json.Bytes * option error :=
  match fault db with
  | Some e => (∅, Some e)
  | None => (kv db, None)
  end.

End cache.

(** ** Package cmd/internal/data (managedb.go) *)

Module data.

(** [OrderPrefix] is the prefix added to user orders when stored in a
    database. *)
Definition OrderPrefix : string := "user_order_".

(** The body of the loop of [PrintOrders], for one key. *)
Definition collectOrder (orders : list string) (k : string) : list string :=
  if strings.Contains k OrderPrefix
  then orders ++ [strings.ReplaceAll k OrderPrefix ""]
  else orders.

(** [PrintOrders(db, w)]: the lines written to [w], and the error.  The keys
    are visited in the order in which the map enumerates them. *)
Definition PrintOrders (db : cache.DataBase) : list string * option error :=
  match cache.Map db with
  | (_, Some err) => ([], Some err)
  | (all, None) =>
      let orders := foldl collectOrder [] (fst <$> map_to_list all) in
      if (length orders <? 1)%nat then (["No orders saved."], None)
      else ("Your Orders:" :: ((fun o => "  " +:+ o) <$> orders), None)
  end.

(** [GetOrder(name, db)]. *)
Definition GetOrder (name : string) (db : cache.DataBase)
  : option dawg.Order * option error :=
  match cache.Get db (OrderPrefix +:+ name) with
  | (_, Some err) => (None, Some err)
  | (raw, None) =>
      if json.isNil raw then (None, Some (ErrCannotFindOrder name))
      else
        let order := dawg.zeroOrder in
        match json.Unmarshal raw order with
        | (_, Some err) => (None, Some err)
        | (order, None) =>
            let order := dawg.SetName order name in
            (Some order, None)
        end
  end.

(** [SaveOrder(o, db)]: the database after the call, and the error. *)
Definition SaveOrder (o : dawg.Order) (db : cache.DataBase)
  : cache.DataBase * option error :=
  match json.Marshal o with
  | (_, Some err) => (db, Some err)
  | (raw, None) => cache.Put db (OrderPrefix +:+ dawg.Name o) raw
  end.

End data.

(** ** Effects

    A method of the cart runs against the state it may change and leaves a
    trace of the calls it makes to its collaborators: the database, the menu
    cache and the store behind it, the ordering API, the output writer. *)

Inductive Event : Type :=
  | DbGet (key : string)
  | DbPut (key : string)
  | DbDelete (key : string)
  | DbMap
  | DbUpdateTS (key : string)
  | StoreFetchMenu
  | MenuRead
  | MenuGetVariant (code : string)
  | ApiValidate (order : string)
  | ApiNearestStore (service : string)
  | OutWrite (line : string).

#[global] Instance Event_eq_dec : EqDecision Event.
Proof. solve_decision. Defined.

Definition M (S A : Type) : Type := S -> A * S * list Event.

#[global] Instance M_ret {S} : MRet (M S) := fun A (a : A) s => (a, s, []).

#[global] Instance M_bind {S} : MBind (M S) := fun A B (k : A -> M S B) (m : M S A) s =>
  let '(a, s1, t1) := m s in
  let '(b, s2, t2) := k a s1 in
  (b, s2, t1 ++ t2).

Definition get {S} : M S S := fun s => (s, s, []).
Definition put {S} (s : S) : M S unit := fun _ => (tt, s, []).
Definition emit {S} (e : Event) : M S unit := fun s => (tt, s, [e]).

Definition result {S A} (r : A * S * list Event) : A := fst (fst r).
Definition final {S A} (r : A * S * list Event) : S := snd (fst r).
Definition trace {S A} (r : A * S * list Event) : list Event := snd r.

(** ** Package cmd/cart (cart.go) *)

Module cart.

(** Modelled from the spec: the menu cache of [data.MenuCacher], the catalog
    it holds (if any) and its freshness window. *)
Record MenuCacher : Type := {
  cached : option dawg.Menu;
  decay : Z
}.

(** [client.StoreFinder], as far as the cart uses it: the user's live
    address. *)
Record StoreFinder : Type := {
  finderAddress : dawg.StreetAddr
}.

(** The [Cart] struct.  [CurrentOrder] is a pointer: [None] is nil. *)
Record Cart : Type := {
  menuCacher : MenuCacher;
  db : cache.DataBase;
  finder : StoreFinder;
  CurrentOrder : option dawg.Order;
  out : list string
}.

Definition setMenuCacher (c : Cart) (mc : MenuCacher) : Cart :=
  {| menuCacher := mc; db := db c; finder := finder c;
     CurrentOrder := CurrentOrder c; out := out c |}.

Definition setDb (c : Cart) (d : cache.DataBase) : Cart :=
  {| menuCacher := menuCacher c; db := d; finder := finder c;
     CurrentOrder := CurrentOrder c; out := out c |}.

Definition setCurrentOrder (c : Cart) (o : option dawg.Order) : Cart :=
  {| menuCacher := menuCacher c; db := db c; finder := finder c;
     CurrentOrder := o; out := out c |}.

Definition setOut (c : Cart) (w : list string) : Cart :=
  {| menuCacher := menuCacher c; db := db c; finder := finder c;
     CurrentOrder := CurrentOrder c; out := w |}.

(** What lies outside the process: the clock, the menu the store answers
    with, and the verdict of the ordering API on an order. *)
Record World : Type := {
  now : Z;
  fetchMenu : dawg.Menu * option error;
  validate : dawg.Order -> option error
}.

(** [fmt.Fprintf(c.out, ...)] and [fmt.Fprintln(c.out, ...)]. *)
Definition Fprint (line : string) : M Cart unit :=
  _ ← emit (OutWrite line);
  c ← get;
  put (setOut c (out c ++ [line])).

Section Collaborators.

Variable W : World.

(** Is the time stamp older than the freshness window, or missing. *)
Definition stale (c : Cart) (key : string) : bool :=
  match cache.stamps (db c) !! key with
  | None => true
  | Some t => (decay (menuCacher c) <? now W - t)%Z
  end.

(** Modelled from the spec: [db.UpdateTS(key, c)], the staleness check of
    the menu cache.  When the entry is stale or absent the catalog is fetched
    from the store again and the cached entry and its time stamp are
    overwritten; otherwise nothing happens. *)
Definition UpdateTS (key : string) : M Cart (option error) :=
  _ ← emit (DbUpdateTS key);
  c ← get;
  match cache.fault (db c) with
  | Some e => mret (Some e)
  | None =>
      if stale c key then
        _ ← emit StoreFetchMenu;
        match fetchMenu W with
        | (_, Some e) => mret (Some e)
        | (m, None) =>
            _ ← put (setDb
                       (setMenuCacher c {| cached := Some m;
                                           decay := decay (menuCacher c) |})
                       (cache.setStamps (db c) (<[key := now W]> (cache.stamps (db c)))));
            mret None
        end
      else mret None
  end.

(** Modelled from the spec: [c.Menu()] returns the cached catalog; when there
    is none it fetches one and keeps it. *)
Definition Menu : M Cart dawg.Menu :=
  _ ← emit MenuRead;
  c ← get;
  match cached (menuCacher c) with
  | Some m => mret m
  | None =>
      _ ← emit StoreFetchMenu;
      match fetchMenu W with
      | (m, Some _) => mret m
      | (m, None) =>
          _ ← put (setMenuCacher c {| cached := Some m;
                                      decay := decay (menuCacher c) |});
          mret m
      end
  end.

(** [DeleteOrder] will delete an order from the database. *)
Definition DeleteOrder (name : string) : M Cart (option error) :=
  _ ← emit (DbDelete (data.OrderPrefix +:+ name));
  c ← get;
  let '(d, err) := cache.Delete (db c) (data.OrderPrefix +:+ name) in
  _ ← put (setDb c d);
  mret err.

(** [GetOrder] will get an order from the database. *)
Definition GetOrder (name : string) : M Cart (option dawg.Order * option error) :=
  _ ← emit (DbGet (data.OrderPrefix +:+ name));
  c ← get;
  match cache.Get (db c) (data.OrderPrefix +:+ name) with
  | (_, Some err) => mret (None, Some err)
  | (raw, None) =>
      if json.lenIsZero raw then mret (None, Some ErrOrderNotFound)
      else
        let order := dawg.zeroOrder in
        let order := dawg.Init order in
        let order := dawg.SetName order name in
        let order := dawg.setAddress order
                       (dawg.StreetAddrFromAddress (finderAddress (finder c))) in
        let '(order, err) := json.Unmarshal raw order in
        mret (Some order, err)
  end.

(** [SetCurrentOrder] sets the order that the cart is currently working
    with. *)
Definition SetCurrentOrder (name : string) : M Cart (option error) :=
  '(o, err) ← GetOrder name;
  c ← get;
  _ ← put (setCurrentOrder c o);
  mret err.

(** The body of the loop of [ListOrders], for one key. *)
Definition collectName (names : list string) (k : string) : list string :=
  if strings.HasPrefix k data.OrderPrefix
  then names ++ [strings.ReplaceAll k data.OrderPrefix ""]
  else names.

(** [ListOrders] will return a list of the orders stored in the cart.  The
    keys are visited in the order in which the map enumerates them. *)
Definition ListOrders : M Cart (list string * option error) :=
  _ ← emit DbMap;
  c ← get;
  match cache.Map (db c) with
  | (_, Some err) => mret ([], Some err)
  | (mp, None) => mret (foldl collectName [] (fst <$> map_to_list mp), None)
  end.

(** The parsing part of [addTopping]: everything before its last line, the
    call [p.AddTopping(topping[0], side, amount)].  The result is the error,
    or the three arguments of that call.

    formated as <name>:<side>:<amount>
    name is the only one that is required. *)
Definition toppingSpec (topStr : string) : error + (string * string * string) :=
  let topping := strings.Split topStr ":" in
  if String.eqb (nth 0 topping "") "" || (3 <? length topping)%nat then
    inl ErrToppingFormat
  else
    let side :=
      if (length topping =? 1)%nat then dawg.ToppingFull
      else if (2 <=? length topping)%nat then
        let side := nth 1 topping "" in
        let lower := strings.ToLower side in
        if String.eqb lower "left" then dawg.ToppingLeft
        else if String.eqb lower "right" then dawg.ToppingRight
        else if String.eqb lower "full" then dawg.ToppingFull
        else side
      else "" in
    let amount :=
      if (length topping =? 3)%nat then nth 2 topping "" else "1.0" in
    inr (nth 0 topping "", side, amount).

(** [addTopping(topStr, p)]: the item after the call, and the error. *)
Definition addTopping (topStr : string) (p : dawg.OrderProduct)
  : dawg.OrderProduct * option error :=
  match toppingSpec topStr with
  | inl err => (p, Some err)
  | inr (name, side, amount) => dawg.AddTopping p name side amount
  end.

(** [getOrderItem(order, code)]: the first item with that code.  The Go
    function returns the pointer held in [order.Products]; here it is the
    index of that entry, [None] for nil. *)
Fixpoint findItem (products : list dawg.OrderProduct) (code : string) : option nat :=
  match products with
  | [] => None
  | itm :: rest =>
      if String.eqb (dawg.ItemCode itm) code then Some 0
      else S <$> findItem rest code
  end.

Definition getOrderItem (order : dawg.Order) (code : string) : option nat :=
  findItem (dawg.Products order) code.

(** The loop of [addToppingsToOrder].  The item is edited in place, through
    the pointer: the order holds the edited item from then on. *)
Fixpoint addToppingsLoop (o : dawg.Order) (product : string) (toppings : list string)
  : dawg.Order * option error :=
  match toppings with
  | [] => (o, None)
  | top :: rest =>
      match getOrderItem o product with
      | None => (o, Some (ErrCannotFind product (dawg.Name o)))
      | Some i =>
          match dawg.Products o !! i with
          | None => (o, Some (ErrCannotFind product (dawg.Name o)))  (* no such index: never *)
          | Some p =>
              let '(p, err) := addTopping top p in
              let o := dawg.setProducts o (<[i := p]> (dawg.Products o)) in
              match err with
              | Some err => (o, Some err)
              | None => addToppingsLoop o product rest
              end
          end
      end
  end.

(** [addToppingsToOrder(o, product, toppings)]: the order after the call,
    and the error. *)
Definition addToppingsToOrder (o : dawg.Order) (product : string) (toppings : list string)
  : dawg.Order * option error :=
  if String.eqb product "" then (o, Some ErrNoProductGiven)
  else addToppingsLoop o product toppings.

(** [addProducts(o, menu, products)], on the order as state. *)
Fixpoint addProducts (menu : dawg.Menu) (products : list string)
  : M dawg.Order (option error) :=
  match products with
  | [] => mret None
  | newP :: rest =>
      _ ← emit (MenuGetVariant newP);
      let '(itm, err) := dawg.GetVariant menu newP in
      match err with
      | Some err => mret (Some err)
      | None =>
          o ← get;
          let '(o, err) := dawg.AddProduct o itm in
          _ ← put o;
          match err with
          | Some err => mret (Some err)
          | None => addProducts menu rest
          end
      end
  end.

(** Run a computation on the order [o] that [c.CurrentOrder] points to: the
    pointer holds what the computation leaves. *)
Definition onOrder {A} (o : dawg.Order) (m : M dawg.Order A) : M Cart A :=
  fun c => let '(a, o', t) := m o in (a, setCurrentOrder c (Some o'), t).

(** [Validate] the current order. *)
Definition Validate : M Cart (option error) :=
  c ← get;
  match CurrentOrder c with
  | None => mret (Some ErrNoCurrentOrder)
  | Some o =>
      _ ← Fprint ("validating order '" +:+ dawg.Name o +:+ "'...");
      _ ← emit (ApiValidate (dawg.Name o));
      let err := validate W o in
      if dawg.IsWarning err then mret None
      else
        _ ← Fprint "Order is ok.";
        mret err
  end.

(** [ValidateOrder] will retrieve an order from the database and validate
    it. *)
Definition ValidateOrder (name : string) : M Cart (option error) :=
  '(o, err) ← GetOrder name;
  match err, o with
  | Some err, _ => mret (Some err)
  | None, None => mret None
  | None, Some o =>
      _ ← emit (ApiValidate (dawg.Name o));
      let err := validate W o in
      if dawg.IsWarning err then mret None else mret err
  end.

(** [AddToppings] will add toppings to a product in the current order. *)
Definition AddToppings (product : string) (toppings : list string) : M Cart (option error) :=
  c ← get;
  match CurrentOrder c with
  | None => mret (Some ErrNoCurrentOrder)
  | Some o =>
      let '(o, err) := addToppingsToOrder o product toppings in
      _ ← put (setCurrentOrder c (Some o));
      mret err
  end.

(** [AddProducts] adds a list of products to the current order. *)
Definition AddProducts (products : list string) : M Cart (option error) :=
  c ← get;
  match CurrentOrder c with
  | None => mret (Some ErrNoCurrentOrder)
  | Some o =>
      err ← UpdateTS "menu";
      match err with
      | Some err => mret (Some err)
      | None =>
          menu ← Menu;
          onOrder o (addProducts menu products)
      end
  end.

End Collaborators.

End cart.

(** ** Package cmd (cart.go): the older cart command

    The command layer has its own copy of the topping helper, without the
    checks and without the side keywords of the one in package cart. *)

Module cmd.

(** The parsing part of [addTopping] of package cmd: the error, or the three
    arguments of the call [p.AddTopping(topping[0], side, amount)]. *)
Definition toppingSpec (topStr : string) : error + (string * string * string) :=
  let topping := strings.Split topStr ":" in
  if (length topping <? 1)%nat then inl ErrToppingFormat
  else
    let side :=
      if (length topping =? 1)%nat then dawg.ToppingFull
      else if (2 <=? length topping)%nat then nth 1 topping ""
      else "" in
    let amount :=
      if (length topping =? 3)%nat then nth 2 topping "" else "1.0" in
    inr (nth 0 topping "", side, amount).

(** [addTopping(topStr, p)] of package cmd; the error of [p.AddTopping] is
    dropped. *)
Definition addTopping (topStr : string) (p : dawg.OrderProduct)
  : dawg.OrderProduct * option error :=
  match toppingSpec topStr with
  | inl err => (p, Some err)
  | inr (name, side, amount) => (fst (dawg.AddTopping p name side amount), None)
  end.

(** [getOrderItem(order, code)] of package cmd, the same scan as in package
    cart: the index of the first item with that code. *)
Definition getOrderItem (order : dawg.Order) (code : string) : option nat :=
  cart.findItem (dawg.Products order) code.

(** Does the loop of [cartCmd.Run] that removes a topping stop at this item:
    the item carries the topping, or it has the product code.  [p.Options()]
    is the option map [p.Opts] that the loop goes on to edit. *)
Definition removesFrom (p : dawg.OrderProduct) (remove product : string) : bool :=
  bool_decide (is_Some (dawg.Opts p !! remove)) || String.eqb (dawg.Code p) product.

(** The loop of [cartCmd.Run] that removes a topping (cart.go 74-79):
    [delete(p.Opts, c.remove)] on the first item it stops at, then [break]. *)
Fixpoint removeTopping (products : list dawg.OrderProduct) (remove product : string)
  : list dawg.OrderProduct :=
  match products with
  | [] => []
  | p :: rest =>
      if removesFrom p remove product then
        {| dawg.Code := dawg.Code p; dawg.Qty := dawg.Qty p;
           dawg.Opts := delete remove (dawg.Opts p) |} :: rest
      else p :: removeTopping rest remove product
  end.

(** The store behind [c.store()], as far as [addOrderCmd.Run] uses it: the
    order that [NewOrder] makes and the menu that [GetVariant] reads. *)
Record Store : Type := {
  newOrder : dawg.Order;
  storeMenu : dawg.Menu
}.

(** The errors that [addOrderCmd.Run] makes itself, and those it passes
    on. *)
Inductive runError : Type :=
  | NoOrderName           (* "No order name... use '--name=<order name>' ..." *)
  | ToppingsOnly          (* "cannot add just a toppings without products" *)
  | Passed (e : error).

(** The loop of [addOrderCmd.Run] over [c.products]; [i] is the index of the
    product at the head.  The result of [order.AddProduct] is not looked
    at.  Items are values here: whether [GetVariant] hands out one shared
    item for a code asked for twice is decided in package dawg, outside the
    sources at hand, so nothing below speaks of the items of an order built
    from products. *)
Fixpoint addOrderLoop (st : Store) (i : nat) (products toppings : list string)
    (order : dawg.Order) : dawg.Order * option error :=
  match products with
  | [] => (order, None)
  | p :: rest =>
      match dawg.GetVariant (storeMenu st) p with
      | (_, Some err) => (order, Some err)
      | (prod, None) =>
          let '(prod, err) :=
            if (i <? length toppings)%nat
            then dawg.AddTopping prod (nth i toppings "") dawg.ToppingFull "1.0"
            else (prod, None) in
          match err with
          | Some err => (order, Some err)
          | None =>
              let order := fst (dawg.AddProduct order prod) in
              addOrderLoop st (S i) rest toppings order
          end
      end
  end.

(** [addOrderCmd.Run]: the database after the call, and the error.  [name]
    is the --name flag.  The order is saved with [data.SaveOrder]; the writer
    the call hands over is a buffer that is thrown away. *)
Definition addOrderRun (st : Store) (name : string) (args products toppings : list string)
    (db : cache.DataBase) : cache.DataBase * option runError :=
  if String.eqb name "" && (length args <? 1)%nat then (db, Some NoOrderName)
  else
    let order := newOrder st in
    let order :=
      if String.eqb name "" then dawg.SetName order (nth 0 args "")
      else dawg.SetName order name in
    let save (order : dawg.Order) :=
      let '(db, err) := data.SaveOrder order db in (db, Passed <$> err) in
    if (0 <? length products)%nat then
      match addOrderLoop st 0 products toppings order with
      | (_, Some err) => (db, Some (Passed err))
      | (order, None) => save order
      end
    else if (0 <? length toppings)%nat then (db, Some ToppingsOnly)
    else save order.

End cmd.

(** ** Package dawg: the user profile (user.go)

    Of the user profile the sources hold the tests only. *)

Module user.

(** Modelled from the spec: a store, with the address and the service method
    used to select it.  [ref] stands for the pointer: two stores are the same
    object when their [ref] is the same. *)
Record Store : Type := {
  ref : nat;
  storeID : string;
  userAddress : dawg.StreetAddr;
  userService : string
}.

(** Modelled from the spec: the user profile, with the addresses, the
    selected service method (the empty string when unset) and the memoized
    nearest store. *)
Record UserProfile : Type := {
  Addresses : list dawg.StreetAddr;
  ServiceMethod : string;
  store : option Store
}.

(** The profile together with the allocator of the process: [nextRef] is the
    pointer the next new store gets. *)
Record Heap : Type := {
  profile : UserProfile;
  nextRef : nat
}.

#[global] Instance StreetAddr_eq_dec : EqDecision dawg.StreetAddr.
Proof. solve_decision. Defined.

(** Modelled from the spec: the default address is the first address; with
    no address there is none. *)
Definition DefaultAddress (u : UserProfile) : option dawg.StreetAddr :=
  head (Addresses u).

(** Modelled from the spec: [AddAddress] adds an address to the profile. *)
Definition AddAddress (u : UserProfile) (a : dawg.StreetAddr) : UserProfile :=
  {| Addresses := Addresses u ++ [a]; ServiceMethod := ServiceMethod u;
     store := store u |}.

Definition validService (service : string) : bool :=
  String.eqb service dawg.Delivery || String.eqb service dawg.Carryout.

(** Modelled from the spec: [SetServiceMethod] validates against the
    enumeration delivery, carryout; any other value fails with
    [ErrBadService] and the profile is not changed. *)
Definition SetServiceMethod (u : UserProfile) (service : string)
  : UserProfile * option error :=
  if validService service then
    ({| Addresses := Addresses u; ServiceMethod := service; store := store u |}, None)
  else (u, Some ErrBadService).

(** Is the memoized store the one computed for this address and service
    method. *)
Definition memoFor (s : Store) (addr : dawg.StreetAddr) (service : string) : bool :=
  bool_decide (userAddress s = addr) && String.eqb (userService s) service.

Section OrderingAPI.

(** The ordering API: the identifier of the store nearest to an address for
    a service method, or an error. *)
Variable FindNearestStore : dawg.StreetAddr -> string -> error + string.

(** The proximity lookup, which memoizes its result on the user. *)
Definition lookupStore (addr : dawg.StreetAddr) (service : string)
  : M Heap (option Store * option error) :=
  _ ← emit (ApiNearestStore service);
  h ← get;
  match FindNearestStore addr service with
  | inl err => mret (None, Some err)
  | inr id =>
      let s := {| ref := nextRef h; storeID := id;
                  userAddress := addr; userService := service |} in
      _ ← put {| profile := {| Addresses := Addresses (profile h);
                               ServiceMethod := ServiceMethod (profile h);
                               store := Some s |};
                 nextRef := S (nextRef h) |};
      mret (Some s, None)
  end.

(** Modelled from the spec: [NearestStore(service)] requires an address and
    a valid service method.  The first successful call for an address and a
    service method asks the ordering API and memoizes the store on the user;
    later calls with the same pair return the memoized store without asking
    again. *)
Definition NearestStore (service : string) : M Heap (option Store * option error) :=
  h ← get;
  match DefaultAddress (profile h) with
  | None => mret (None, Some ErrNoAddress)
  | Some addr =>
      if negb (validService service) then mret (None, Some ErrBadService)
      else
        match store (profile h) with
        | Some s =>
            if memoFor s addr service then mret (Some s, None)
            else lookupStore addr service
        | None => lookupStore addr service
        end
  end.

End OrderingAPI.

End user.

(** ** The topping mini-language as the specification words it

    [name[:side[:amount]]], read from the list of fields. *)

Module spec.

(** A side is mapped without regard to case: left, right, full; any other
    literal is passed through unchanged. *)
Definition placement (side : string) : string :=
  let lower := strings.ToLower side in
  if String.eqb lower "left" then dawg.ToppingLeft
  else if String.eqb lower "right" then dawg.ToppingRight
  else if String.eqb lower "full" then dawg.ToppingFull
  else side.

(** The name is required and non-empty; one field uses the placement whole
    and the amount "1.0"; a third field is the amount, verbatim; more than
    three fields are refused. *)
Definition parse (fields : list string) : error + (string * string * string) :=
  match fields with
  | [name] =>
      if String.eqb name "" then inl ErrToppingFormat
      else inr (name, dawg.ToppingFull, "1.0")
  | [name; side] =>
      if String.eqb name "" then inl ErrToppingFormat
      else inr (name, placement side, "1.0")
  | [name; side; amount] =>
      if String.eqb name "" then inl ErrToppingFormat
      else inr (name, placement side, amount)
  | _ => inl ErrToppingFormat
  end.

(** A field holds no colon. *)
Definition colonFree (s : string) : Prop := strings.countByte s ":" = 0.

(** An item with another option map. *)
Definition withOpts (p : dawg.OrderProduct) (opts : gmap string (string * string))
  : dawg.OrderProduct :=
  {| dawg.Code := dawg.Code p; dawg.Qty := dawg.Qty p; dawg.Opts := opts |}.

(** Two carts with the same stored orders: the part of a cart that decides
    what [GetOrder] loads. *)
Definition sameStore (c c' : cart.Cart) : Prop :=
  cart.finder c' = cart.finder c /\
  cache.fault (cart.db c') = cache.fault (cart.db c) /\
  cache.kv (cart.db c') = cache.kv (cart.db c).

End spec.

(** ** Sample data, for the examples *)

Module sample.

Definition pizza : dawg.OrderProduct :=
  {| dawg.Code := "14SCREEN"; dawg.Qty := 1; dawg.Opts := ∅ |}.

Definition homeA : dawg.StreetAddr :=
  {| dawg.LineOne := "1600 Pennsylvania Ave NW"; dawg.City := "Washington";
     dawg.StateCode := "DC"; dawg.Zip := "20500" |}.

Definition homeB : dawg.StreetAddr :=
  {| dawg.LineOne := "1 Main St"; dawg.City := "Springfield";
     dawg.StateCode := "IL"; dawg.Zip := "62701" |}.

(** An order made while the user lived at [homeA]. *)
Definition order1 : dawg.Order :=
  {| dawg.OrderName := "pizza1"; dawg.Address := Some homeA;
     dawg.ServiceMethod := dawg.Delivery; dawg.Products := [pizza] |}.

Definition emptyDb : cache.DataBase :=
  {| cache.kv := ∅; cache.stamps := ∅; cache.fault := None |}.

Definition menu : dawg.Menu := {| dawg.Variants := {[ "14SCREEN" := pizza ]} |}.

Definition world : cart.World :=
  {| cart.now := 100; cart.fetchMenu := (menu, None);
     cart.validate := fun _ => None |}.

(** A cart without current order, of a user who now lives at [homeB]. *)
Definition cart0 : cart.Cart :=
  {| cart.menuCacher := {| cart.cached := None; cart.decay := 60 |};
     cart.db := emptyDb;
     cart.finder := {| cart.finderAddress := homeB |};
     cart.CurrentOrder := None;
     cart.out := [] |}.

(** The same cart, working on [order1]. *)
Definition cart1 : cart.Cart := cart.setCurrentOrder cart0 (Some order1).

(** The same cart, after [order1] was saved. *)
Definition cartSaved : cart.Cart :=
  cart.setDb cart0 (fst (data.SaveOrder order1 emptyDb)).

(** A database with two saved orders, the second with the prefix inside its
    name, and two keys that are no saved orders. *)
Definition listDb : cache.DataBase :=
  {| cache.kv := {[ "user_order_pizza1" := fst (json.Marshal order1);
                    "user_order_my_user_order_x" := fst (json.Marshal order1);
                    "menu" := json.Malformed;
                    "old_user_order_y" := json.Empty ]};
     cache.stamps := ∅; cache.fault := None |}.

Definition cartList : cart.Cart := cart.setDb cart0 listDb.

(** Two items that carry the topping "P". *)
Definition smallP : dawg.OrderProduct :=
  {| dawg.Code := "10SCREEN"; dawg.Qty := 1;
     dawg.Opts := {[ "P" := (dawg.ToppingFull, "1.0") ]} |}.

Definition pizzaP : dawg.OrderProduct :=
  {| dawg.Code := "14SCREEN"; dawg.Qty := 1;
     dawg.Opts := {[ "P" := (dawg.ToppingLeft, "1.0") ]} |}.

(** The store of the add command: a new order is for delivery to [homeA]. *)
Definition store : cmd.Store :=
  {| cmd.newOrder := {| dawg.OrderName := ""; dawg.Address := Some homeA;
                        dawg.ServiceMethod := dawg.Delivery; dawg.Products := [] |};
     cmd.storeMenu := menu |}.

(** The ordering API answers every lookup with the same store. *)
Definition api (addr : dawg.StreetAddr) (service : string) : error + string :=
  inr "4336".

(** A profile with one address and no memoized store, as in
    [TestUserNearestStore] after [AddAddress]. *)
Definition heap0 : user.Heap :=
  {| user.profile := {| user.Addresses := [homeA]; user.ServiceMethod := "";
                        user.store := None |};
     user.nextRef := 0 |}.

End sample.

(** * Properties *)

(** ** Package strings *)

Section SplitFacts.

Variable sep : ascii.

Lemma Split_not_nil (s : string) : strings.Split s sep <> [].
Proof.
  destruct s as [|c t]; simpl; [discriminate|].
  destruct (Ascii.eqb c sep); [discriminate|].
  destruct (strings.Split t sep); discriminate.
Qed.

Lemma Split_length (s : string) :
  length (strings.Split s sep) = S (strings.countByte s sep).
Proof.
  induction s as [|c t IH]; simpl; [reflexivity|].
  destruct (Ascii.eqb c sep); simpl; [now rewrite IH|].
  destruct (strings.Split t sep) as [|f fs] eqn:E; simpl in *; lia.
Qed.

(** A string without separator is its own single field. *)
Lemma Split_free (s : string) :
  strings.countByte s sep = 0 -> strings.Split s sep = [s].
Proof.
  induction s as [|c t IH]; simpl; [reflexivity|].
  destruct (Ascii.eqb c sep); simpl; [discriminate|].
  intros H. now rewrite IH.
Qed.

(** The first separator ends the first field. *)
Lemma Split_app (a b : string) :
  strings.countByte a sep = 0 ->
  strings.Split (a +:+ String sep b) sep = a :: strings.Split b sep.
Proof.
  induction a as [|c t IH]; simpl.
  - now rewrite Ascii.eqb_refl.
  - destruct (Ascii.eqb c sep); simpl; [discriminate|].
    intros H. now rewrite IH.
Qed.

(** Joining the fields gives the string back. *)
Lemma Join_Split (s : string) : strings.Join (strings.Split s sep) sep = s.
Proof.
  induction s as [|c t IH]; simpl; [reflexivity|].
  destruct (Ascii.eqb_spec c sep) as [->|Hne].
  - pose proof (Split_not_nil t) as Hnil.
    simpl. destruct (strings.Split t sep) as [|f fs]; [congruence|].
    simpl in *. now rewrite IH.
  - pose proof (Split_not_nil t) as Hnil.
    destruct (strings.Split t sep) as [|f fs]; [congruence|].
    destruct fs as [|g gs]; simpl in *; now rewrite <- IH.
Qed.

(** No field holds a separator. *)
Lemma Split_fields_free (s f : string) :
  In f (strings.Split s sep) -> strings.countByte f sep = 0.
Proof.
  revert f. induction s as [|c t IH]; simpl; intros f.
  - intros [<-|[]]. reflexivity.
  - destruct (Ascii.eqb c sep) eqn:E.
    + intros [<-|H]; [reflexivity|now apply IH].
    + destruct (strings.Split t sep) as [|g gs].
      * intros [<-|[]]. simpl. now rewrite E.
      * intros [<-|H]; simpl.
        -- rewrite E. apply IH. now left.
        -- apply IH. now right.
Qed.

(** Splitting the joined fields gives the fields back. *)
Lemma Split_Join (fields : list string) :
  fields <> [] ->
  Forall (fun f => strings.countByte f sep = 0) fields ->
  strings.Split (strings.Join fields sep) sep = fields.
Proof.
  induction fields as [|f fs IH]; [congruence|].
  intros _ Hall. inversion Hall as [|? ? Hf Hfs]; subst.
  destruct fs as [|g gs].
  - simpl. now apply Split_free.
  - change (strings.Join (f :: g :: gs) sep)
      with (f +:+ String sep (strings.Join (g :: gs) sep)).
    rewrite Split_app by assumption.
    rewrite IH; [reflexivity|discriminate|assumption].
Qed.

(** The first field is empty exactly when the string is empty or starts
    with the separator. *)
Lemma Split_first_empty (s : string) :
  nth 0 (strings.Split s sep) "" = "" <->
  s = "" \/ exists t, s = String sep t.
Proof.
  destruct s as [|c t]; simpl.
  - split; auto.
  - destruct (Ascii.eqb_spec c sep) as [->|Hne]; simpl.
    + split; eauto.
    + destruct (strings.Split t sep); simpl; split;
        try discriminate; intros [H|[u H]]; try discriminate;
        injection H; intros; congruence.
Qed.

End SplitFacts.

(** ** The topping mini-language *)

(** The parser of package cart computes what the specification says of the
    colon-delimited fields. *)
Lemma toppingSpec_refines (topStr : string) :
  cart.toppingSpec topStr = spec.parse (strings.Split topStr ":").
Proof.
  unfold cart.toppingSpec.
  pose proof (Split_not_nil ":" topStr) as Hnil.
  destruct (strings.Split topStr ":") as [|name [|side [|amount [|x xs]]]];
    [congruence| | | |]; simpl;
    destruct (String.eqb name ""); reflexivity.
Qed.

Lemma parse_error_iff (fields : list string) :
  fields <> [] ->
  spec.parse fields = inl ErrToppingFormat <->
  nth 0 fields "" = "" \/ 3 < length fields.
Proof.
  intros Hnil.
  destruct fields as [|name [|side [|amount [|x xs]]]]; [congruence|..]; simpl.
  1-3: destruct (String.eqb_spec name "") as [->|Hne]; split;
    [ auto | reflexivity | discriminate | intros [H|H]; [congruence|lia] ].
  split; [intros _; right; lia | reflexivity].
Qed.

Lemma parse_error_or_triple (fields : list string) :
  spec.parse fields = inl ErrToppingFormat \/
  exists side amount, spec.parse fields = inr (nth 0 fields "", side, amount).
Proof.
  destruct fields as [|name [|side [|amount [|x xs]]]]; simpl; auto;
    destruct (String.eqb name ""); eauto.
Qed.

(** The parser of package cart: for every input string it fails, with the
    error "incorrect topping format", exactly when the first
    colon-delimited field (the name) is empty or when the string splits into
    more than three fields; on every other input it succeeds, and [addTopping]
    hands the parsed name, side and amount to the item.  In terms of the
    string itself: it fails exactly when the string is empty, starts with a
    colon, or holds three colons or more. *)
Theorem toppingSpec_error_iff (topStr : string) :
  let fields := strings.Split topStr ":" in
  (cart.toppingSpec topStr = inl ErrToppingFormat <->
   nth 0 fields "" = "" \/ 3 < length fields) /\
  (cart.toppingSpec topStr = inl ErrToppingFormat <->
   topStr = "" \/ (exists t, topStr = String ":" t) \/
   3 <= strings.countByte topStr ":") /\
  (cart.toppingSpec topStr = inl ErrToppingFormat \/
   exists side amount,
     cart.toppingSpec topStr = inr (nth 0 fields "", side, amount) /\
     forall p, cart.addTopping topStr p =
               dawg.AddTopping p (nth 0 fields "") side amount).
Proof.
  cbv zeta.
  assert (Hiff : cart.toppingSpec topStr = inl ErrToppingFormat <->
                 nth 0 (strings.Split topStr ":") "" = "" \/
                 3 < length (strings.Split topStr ":")).
  { rewrite toppingSpec_refines. apply parse_error_iff, Split_not_nil. }
  split; [exact Hiff|]. split.
  - rewrite Hiff, Split_first_empty, Split_length.
    intuition lia.
  - destruct (parse_error_or_triple (strings.Split topStr ":")) as [H|(side & amount & H)].
    + left. now rewrite toppingSpec_refines.
    + right. exists side, amount.
      rewrite <- toppingSpec_refines in H. split; [exact H|].
      intros p. unfold cart.addTopping. now rewrite H.
Qed.

(** The parser of package cart on the examples of the specification: the
    empty string and a four-field string are refused, and so is an empty
    name. *)
Example toppingSpec_refused :
  cart.toppingSpec "" = inl ErrToppingFormat /\
  cart.toppingSpec "a:left:1.0:x" = inl ErrToppingFormat /\
  cart.toppingSpec ":left" = inl ErrToppingFormat.
Proof. repeat split. Qed.

(** The copy of the parser in package cmd refuses nothing: its only check,
    for a split without fields, never fires. *)
Remark cmd_toppingSpec_total (topStr : string) :
  exists side amount,
    cmd.toppingSpec topStr =
    inr (nth 0 (strings.Split topStr ":") "", side, amount).
Proof.
  unfold cmd.toppingSpec.
  pose proof (Split_not_nil ":" topStr) as Hnil.
  destruct (strings.Split topStr ":") as [|name rest]; [congruence|].
  simpl. eauto.
Qed.

(** On colon-free fields joined by colons, the parser gives what the
    specification says of the fields. *)
Lemma toppingSpec_Join (fields : list string) :
  fields <> [] -> Forall spec.colonFree fields ->
  cart.toppingSpec (strings.Join fields ":") = spec.parse fields.
Proof.
  intros Hnil Hfree. rewrite toppingSpec_refines.
  now rewrite Split_Join.
Qed.

(** C5. A single field parses to the placement whole and the amount "1.0",
    two fields to the placement given by the side and the amount "1.0", three
    fields to that placement and the third field, verbatim, as the amount; so
    do the three examples. *)
Theorem toppingSpec_fields (name side amount : string) :
  spec.colonFree name -> spec.colonFree side -> spec.colonFree amount ->
  name <> "" ->
  cart.toppingSpec name = inr (name, dawg.ToppingFull, "1.0") /\
  cart.toppingSpec (name +:+ ":" +:+ side) =
    inr (name, spec.placement side, "1.0") /\
  cart.toppingSpec (name +:+ ":" +:+ side +:+ ":" +:+ amount) =
    inr (name, spec.placement side, amount).
Proof.
  intros Hn Hs Ha Hne.
  pose proof (toppingSpec_Join [name]) as H1.
  pose proof (toppingSpec_Join [name; side]) as H2.
  pose proof (toppingSpec_Join [name; side; amount]) as H3.
  simpl in H1, H2, H3.
  destruct (String.eqb_spec name ""); [contradiction|].
  split; [|split].
  - apply H1; [discriminate|]. repeat constructor; assumption.
  - apply H2; [discriminate|]. repeat constructor; assumption.
  - apply H3; [discriminate|]. repeat constructor; assumption.
Qed.

Lemma toppingSpec_fields_witness :
  cart.toppingSpec "pepperoni" = inr ("pepperoni", dawg.ToppingFull, "1.0") /\
  cart.toppingSpec "olive:left" = inr ("olive", dawg.ToppingLeft, "1.0") /\
  cart.toppingSpec "basil:right:0.5" = inr ("basil", dawg.ToppingRight, "0.5").
Proof.
  split; [|split].
  - apply (toppingSpec_fields "pepperoni" "" "");
      [reflexivity | reflexivity | reflexivity | discriminate].
  - apply (toppingSpec_fields "olive" "left" "");
      [reflexivity | reflexivity | reflexivity | discriminate].
  - apply (toppingSpec_fields "basil" "right" "0.5");
      [reflexivity | reflexivity | reflexivity | discriminate].
Defined.

(** The parser of package cart: in a topping of two or three fields the
    side is mapped without regard to case.  A side that [strings.ToLower]
    lowers to "left" gives the left half, one that lowers to "right" the right
    half, one that lowers to "full" the whole; every other side is the
    placement as it stands, unchecked. *)
Lemma toppingSpec_side (name side amount : string) :
  spec.colonFree name -> spec.colonFree side -> spec.colonFree amount ->
  name <> "" ->
  exists placement,
    cart.toppingSpec (name +:+ ":" +:+ side) = inr (name, placement, "1.0") /\
    cart.toppingSpec (name +:+ ":" +:+ side +:+ ":" +:+ amount) =
      inr (name, placement, amount) /\
    (strings.ToLower side = "left" -> placement = dawg.ToppingLeft) /\
    (strings.ToLower side = "right" -> placement = dawg.ToppingRight) /\
    (strings.ToLower side = "full" -> placement = dawg.ToppingFull) /\
    (strings.ToLower side <> "left" -> strings.ToLower side <> "right" ->
     strings.ToLower side <> "full" -> placement = side).
Proof.
  intros Hn Hs Ha Hne.
  pose proof (toppingSpec_Join [name; side]) as H2.
  pose proof (toppingSpec_Join [name; side; amount]) as H3.
  simpl in H2, H3.
  destruct (String.eqb_spec name ""); [contradiction|].
  exists (spec.placement side).
  split; [apply H2; [discriminate|repeat constructor; assumption]|].
  split; [apply H3; [discriminate|repeat constructor; assumption]|].
  unfold spec.placement.
  destruct (String.eqb_spec (strings.ToLower side) "left") as [E1|N1];
    [rewrite E1; repeat split; try reflexivity; try discriminate; congruence|].
  destruct (String.eqb_spec (strings.ToLower side) "right") as [E2|N2];
    [rewrite E2; repeat split; try reflexivity; try discriminate; congruence|].
  destruct (String.eqb_spec (strings.ToLower side) "full") as [E3|N3];
    [rewrite E3; repeat split; try reflexivity; try discriminate; congruence|].
  repeat split; congruence.
Qed.

(** A side written with the dotted capital I (the bytes 196 176) lowers to
    "right" and gives the right half, as in Go. *)
Example toppingSpec_side_dotted_I :
  cart.toppingSpec
    ("olive:R" +:+ String (ascii_of_nat 196) (String (ascii_of_nat 176) "GHT")) =
    inr ("olive", dawg.ToppingRight, "1.0").
Proof. reflexivity. Qed.

(** Sides of the parser of package cart: mixed case for the three keywords,
    and a side that is no keyword. *)
Example toppingSpec_side_examples :
  cart.toppingSpec "olive:LEFT" = inr ("olive", dawg.ToppingLeft, "1.0") /\
  cart.toppingSpec "olive:Right:2" = inr ("olive", dawg.ToppingRight, "2") /\
  cart.toppingSpec "olive:fULL" = inr ("olive", dawg.ToppingFull, "1.0") /\
  cart.toppingSpec "olive:Lefty:2" = inr ("olive", "Lefty", "2") /\
  cart.toppingSpec "olive:" = inr ("olive", "", "1.0").
Proof. repeat split. Qed.

(** The copy of the parser in package cmd knows no keyword: the side is
    always handed on as written. *)
Remark cmd_toppingSpec_side :
  cmd.toppingSpec "olive:left" = inr ("olive", "left", "1.0") /\
  cmd.toppingSpec "" = inr ("", dawg.ToppingFull, "1.0") /\
  cmd.toppingSpec "a:b:c:d" = inr ("a", "b", "1.0").
Proof. repeat split. Qed.

(** The copy of the parser in package cmd always gives the three arguments of
    the call. *)
Lemma cmd_toppingSpec_triple (topStr : string) :
  exists name side amount, cmd.toppingSpec topStr = inr (name, side, amount).
Proof.
  unfold cmd.toppingSpec.
  pose proof (Split_not_nil ":" topStr) as Hnil.
  destruct (strings.Split topStr ":") as [|name rest]; [congruence|].
  simpl. eauto.
Qed.

(** C4. The copy of [addTopping] in package cmd does not do what the claim
    says and what the parser of package cart does: it never fails.  Its only
    check asks for a split without fields, and [strings.Split] never gives
    one; so a string whose first field is empty, or that has more than three
    fields, is accepted and handed to the item, where the parser of package
    cart refuses it. *)
Theorem cmd_addTopping_never_refuses (topStr : string) (p : dawg.OrderProduct) :
  snd (cmd.addTopping topStr p) = None /\
  (length (strings.Split topStr ":") <? 1)%nat = false /\
  cmd.toppingSpec "a:b:c:d" = inr ("a", "b", "1.0") /\
  cart.toppingSpec "a:b:c:d" = inl ErrToppingFormat /\
  cmd.toppingSpec ":left" = inr ("", "left", "1.0") /\
  cart.toppingSpec ":left" = inl ErrToppingFormat.
Proof.
  split; [|split; [|repeat split]].
  - unfold cmd.addTopping.
    destruct (cmd_toppingSpec_triple topStr) as (name & side & amount & ->).
    reflexivity.
  - rewrite Split_length. reflexivity.
Qed.

(** C6. The copy of [addTopping] in package cmd maps no side: with one field
    the placement is the whole, with more the second field is handed on as it
    is written, also when it is "left", "right" or "full" in any case, where
    the parser of package cart gives the placement constant. *)
Theorem cmd_addTopping_keeps_side (topStr : string) :
  (exists amount,
     cmd.toppingSpec topStr =
       inr (nth 0 (strings.Split topStr ":") "",
            (if (length (strings.Split topStr ":") =? 1)%nat then dawg.ToppingFull
             else nth 1 (strings.Split topStr ":") ""),
            amount)) /\
  cmd.toppingSpec "olive:left" = inr ("olive", "left", "1.0") /\
  cart.toppingSpec "olive:left" = inr ("olive", dawg.ToppingLeft, "1.0") /\
  cmd.toppingSpec "basil:RIGHT:0.5" = inr ("basil", "RIGHT", "0.5") /\
  cart.toppingSpec "basil:RIGHT:0.5" = inr ("basil", dawg.ToppingRight, "0.5") /\
  "left" <> dawg.ToppingLeft /\ "RIGHT" <> dawg.ToppingRight.
Proof.
  split; [|repeat split; discriminate].
  unfold cmd.toppingSpec.
  pose proof (Split_not_nil ":" topStr) as Hnil.
  destruct (strings.Split topStr ":") as [|name [|side rest]]; [congruence| |];
    simpl; eauto.
Qed.

(** ** Toppings on an order *)

Lemma setProducts_same (o : dawg.Order) : dawg.setProducts o (dawg.Products o) = o.
Proof. now destruct o. Qed.

(** The index that [getOrderItem] gives is that of an item of the order,
    with the code asked for. *)
Lemma findItem_lookup (ps : list dawg.OrderProduct) (code : string) (i : nat) :
  cart.findItem ps code = Some i ->
  exists p, ps !! i = Some p /\ dawg.ItemCode p = code.
Proof.
  revert i. induction ps as [|q ps IH]; simpl; intros i; [discriminate|].
  destruct (String.eqb_spec (dawg.ItemCode q) code) as [E|N].
  - intros [= <-]. eauto.
  - destruct (cart.findItem ps code) as [j|] eqn:Ej; simpl; [|discriminate].
    intros [= <-]. simpl. now apply IH.
Qed.

(** Editing the toppings of the item found keeps it the item found. *)
Lemma findItem_insert (ps : list dawg.OrderProduct) (code : string) (i : nat)
    (p : dawg.OrderProduct) :
  cart.findItem ps code = Some i ->
  dawg.ItemCode p = code ->
  cart.findItem (<[i := p]> ps) code = Some i.
Proof.
  revert i. induction ps as [|q ps IH]; simpl; intros i; [discriminate|].
  destruct (String.eqb_spec (dawg.ItemCode q) code) as [E|N].
  - intros [= <-] Hp. simpl. rewrite Hp. now rewrite String.eqb_refl.
  - destruct (cart.findItem ps code) as [j|] eqn:Ej; simpl; [|discriminate].
    intros [= <-] Hp. simpl.
    destruct (String.eqb_spec (dawg.ItemCode q) code); [contradiction|].
    now rewrite (IH j eq_refl Hp).
Qed.

Lemma addTopping_code (top : string) (p q : dawg.OrderProduct) (err : option error) :
  cart.addTopping top p = (q, err) -> dawg.ItemCode q = dawg.ItemCode p.
Proof.
  unfold cart.addTopping.
  destruct (cart.toppingSpec top) as [e|[[name side] amount]].
  - now intros [= <- _].
  - unfold dawg.AddTopping. now intros [= <- _].
Qed.

(** An error of [addTopping] is an error of the parser, and leaves the item
    as it was. *)
Lemma addTopping_error (top : string) (p q : dawg.OrderProduct) (e : error) :
  cart.addTopping top p = (q, Some e) ->
  q = p /\ cart.toppingSpec top = inl e.
Proof.
  unfold cart.addTopping.
  destruct (cart.toppingSpec top) as [e'|[[name side] amount]].
  - now intros [= <- <-].
  - unfold dawg.AddTopping. discriminate.
Qed.

(** When the loop fails on an order that holds the product, it has applied
    the toppings before the failing one, and only those. *)
Lemma addToppingsLoop_error (product : string) (toppings : list string) :
  forall (o o' : dawg.Order) (i : nat) (e : error),
  cart.getOrderItem o product = Some i ->
  cart.addToppingsLoop o product toppings = (o', Some e) ->
  exists applied top rest,
    toppings = applied ++ top :: rest /\
    cart.addToppingsLoop o product applied = (o', None) /\
    cart.toppingSpec top = inl e.
Proof.
  induction toppings as [|top rest IH]; intros o o' i e Hi; simpl; [discriminate|].
  rewrite Hi. unfold cart.getOrderItem in Hi.
  destruct (findItem_lookup _ _ _ Hi) as (p & Hp & Hcode).
  rewrite Hp.
  destruct (cart.addTopping top p) as [q err] eqn:Eq.
  destruct err as [err|].
  - intros [= <- <-].
    destruct (addTopping_error _ _ _ _ Eq) as [-> Hspec].
    exists [], top, rest. simpl.
    rewrite list_insert_id by assumption.
    now rewrite setProducts_same.
  - intros Hrest.
    assert (Hi' : cart.getOrderItem
                    (dawg.setProducts o (<[i := q]> (dawg.Products o))) product
                  = Some i).
    { unfold cart.getOrderItem. simpl. apply findItem_insert; [assumption|].
      rewrite (addTopping_code _ _ _ _ Eq). exact Hcode. }
    destruct (IH _ _ _ _ Hi' Hrest) as (applied & top' & rest' & -> & Happ & Hspec).
    exists (top :: applied), top', rest'. split; [reflexivity|].
    split; [|exact Hspec].
    simpl. unfold cart.getOrderItem. rewrite Hi, Hp, Eq. exact Happ.
Qed.

(** C3, as the code has it. [addToppingsToOrder] stops at the first failure
    and reports it.  The order is left as it was when no product is named,
    when the product is not in the order, and when the first topping is
    malformed.  When a later topping is malformed, the toppings before it
    have been put on the item: the order is the one that adding just those
    toppings gives. *)
Theorem addToppingsToOrder_failure (o : dawg.Order) (product top : string)
    (rest : list string) :
  cart.addToppingsToOrder o "" (top :: rest) = (o, Some ErrNoProductGiven) /\
  (product <> "" -> cart.getOrderItem o product = None ->
   cart.addToppingsToOrder o product (top :: rest) =
     (o, Some (ErrCannotFind product (dawg.Name o)))) /\
  (product <> "" -> is_Some (cart.getOrderItem o product) ->
   forall e, cart.toppingSpec top = inl e ->
   cart.addToppingsToOrder o product (top :: rest) = (o, Some e)) /\
  (product <> "" -> is_Some (cart.getOrderItem o product) ->
   forall o' e, cart.addToppingsToOrder o product (top :: rest) = (o', Some e) ->
   exists applied bad later,
     top :: rest = applied ++ bad :: later /\
     cart.addToppingsToOrder o product applied = (o', None) /\
     cart.toppingSpec bad = inl e).
Proof.
  split; [reflexivity|].
  split; [|split].
  - intros Hne Hnone. unfold cart.addToppingsToOrder.
    destruct (String.eqb_spec product ""); [contradiction|].
    simpl. now rewrite Hnone.
  - intros Hne [i Hi] e Hspec. unfold cart.addToppingsToOrder.
    destruct (String.eqb_spec product ""); [contradiction|].
    simpl. rewrite Hi. unfold cart.getOrderItem in Hi.
    destruct (findItem_lookup _ _ _ Hi) as (p & Hp & _). rewrite Hp.
    unfold cart.addTopping. rewrite Hspec.
    rewrite list_insert_id by assumption. now rewrite setProducts_same.
  - intros Hne [i Hi] o' e. unfold cart.addToppingsToOrder.
    destruct (String.eqb_spec product ""); [contradiction|].
    apply (addToppingsLoop_error product (top :: rest) o o' i e Hi).
Qed.

Lemma addToppingsToOrder_failure_witness :
  cart.addToppingsToOrder sample.order1 "10SCREEN" ["P"] =
    (sample.order1, Some (ErrCannotFind "10SCREEN" "pizza1")) /\
  cart.addToppingsToOrder sample.order1 "14SCREEN" [":left"; "P"] =
    (sample.order1, Some ErrToppingFormat) /\
  exists applied bad later,
    ["P"; "K:left:1.5:x"] = applied ++ bad :: later /\
    cart.addToppingsToOrder sample.order1 "14SCREEN" applied =
      (dawg.setProducts sample.order1
         [ {| dawg.Code := "14SCREEN"; dawg.Qty := 1;
              dawg.Opts := {[ "P" := (dawg.ToppingFull, "1.0") ]} |} ], None) /\
    cart.toppingSpec bad = inl ErrToppingFormat.
Proof.
  split; [|split].
  - destruct (addToppingsToOrder_failure sample.order1 "10SCREEN" "P" [])
      as (_ & H & _).
    apply H; [discriminate | reflexivity].
  - destruct (addToppingsToOrder_failure sample.order1 "14SCREEN" ":left" ["P"])
      as (_ & _ & H & _).
    apply H; [discriminate | eexists; reflexivity | reflexivity].
  - destruct (addToppingsToOrder_failure sample.order1 "14SCREEN" "P" ["K:left:1.5:x"])
      as (_ & _ & _ & H).
    apply H; [discriminate | eexists; reflexivity | vm_compute; reflexivity].
Defined.

(** C3 as stated fails: a malformed topping after a good one is reported,
    and the good one is on the order by then. *)
Lemma addToppingsToOrder_partial :
  snd (cart.addToppingsToOrder sample.order1 "14SCREEN" ["P"; "K:left:1.5:x"])
    = Some ErrToppingFormat /\
  fst (cart.addToppingsToOrder sample.order1 "14SCREEN" ["P"; "K:left:1.5:x"])
    <> sample.order1.
Proof.
  split; [reflexivity|].
  intros H.
  apply (f_equal (fun o => dawg.Products o !! 0%nat ≫= fun p => dawg.Opts p !! "P")) in H.
  vm_compute in H. discriminate H.
Qed.

(** ** Loading and saving orders *)

Lemma decodeAddr_encodeAddr (a into : dawg.StreetAddr) :
  json.decodeAddr (json.encodeAddr a) into = a.
Proof. now destruct a. Qed.

(** What [json.Marshal] writes for an order, [json.Unmarshal] reads back
    into any order of that name, whatever address that order held. *)
Lemma Unmarshal_Marshal (o into : dawg.Order) :
  dawg.Name into = dawg.Name o ->
  json.Unmarshal (fst (json.Marshal o)) into = (o, None).
Proof.
  destruct o as [n a m ps], into as [n' a' m' ps']. simpl. intros ->.
  unfold json.decodeOrder. simpl.
  destruct a as [a|]; simpl; [|reflexivity].
  now rewrite decodeAddr_encodeAddr.
Qed.





(** The older [data.GetOrder] names the order after decoding it and stamps
    no address at all: the address is the stored one. *)
Remark data_GetOrder_document (db : cache.DataBase) (name : string) (d : json.OrderDoc) :
  cache.fault db = None ->
  cache.kv db !! (data.OrderPrefix +:+ name) = Some (json.Document d) ->
  exists o,
    data.GetOrder name db = (Some o, None) /\
    dawg.Name o = name /\
    dawg.Address o = json.decodeAddrField (json.dAddress d) None.
Proof.
  intros Hf Hk. unfold data.GetOrder, cache.Get. rewrite Hf, Hk. simpl.
  eexists. split; [reflexivity|]. split; reflexivity.
Qed.

(** ** The menu cache and the current order *)

Lemma bind_run {S A B} (m : M S A) (k : A -> M S B) (s : S) :
  (m ≫= k) s =
  let '(a, s1, t1) := m s in
  let '(b, s2, t2) := k a s1 in
  (b, s2, t1 ++ t2).
Proof. reflexivity. Qed.

(** Membership in a trace that is written out. *)
Ltac in_trace :=
  unfold not; repeat (rewrite elem_of_cons || rewrite elem_of_nil).

(** The four ways [UpdateTS] can go. *)
Lemma UpdateTS_cases (W : cart.World) (key : string) (c : cart.Cart) :
  (exists e, cache.fault (cart.db c) = Some e /\
     cart.UpdateTS W key c = (Some e, c, [DbUpdateTS key])) \/
  (cache.fault (cart.db c) = None /\ cart.stale W c key = false /\
     cart.UpdateTS W key c = (None, c, [DbUpdateTS key])) \/
  (exists e, cache.fault (cart.db c) = None /\ cart.stale W c key = true /\
     snd (cart.fetchMenu W) = Some e /\
     cart.UpdateTS W key c = (Some e, c, [DbUpdateTS key; StoreFetchMenu])) \/
  (exists c',
     cart.UpdateTS W key c = (None, c', [DbUpdateTS key; StoreFetchMenu]) /\
     cache.fault (cart.db c) = None /\ cart.stale W c key = true /\
     snd (cart.fetchMenu W) = None /\
     cart.cached (cart.menuCacher c') = Some (fst (cart.fetchMenu W)) /\
     cache.stamps (cart.db c') !! key = Some (cart.now W) /\
     cart.CurrentOrder c' = cart.CurrentOrder c).
Proof.
  unfold cart.UpdateTS, mbind, M_bind, emit, get, put, mret, M_ret.
  destruct (cache.fault (cart.db c)) as [e|] eqn:Hf.
  - left. eauto.
  - right. destruct (cart.stale W c key) eqn:Hs.
    + right. destruct (cart.fetchMenu W) as [m [e|]] eqn:Hm; simpl.
      * left. exists e. auto.
      * right. eexists. split; [reflexivity|].
        repeat split; simpl; try reflexivity.
        apply lookup_insert_eq.
    + left. auto.
Qed.

(** The staleness check: the store is asked for its menu exactly when the
    database works and the time stamp is missing or too old. *)
Lemma UpdateTS_fetches_iff_stale (W : cart.World) (key : string) (c : cart.Cart) :
  StoreFetchMenu ∈ trace (cart.UpdateTS W key c) <->
  cache.fault (cart.db c) = None /\ cart.stale W c key = true.
Proof.
  destruct (UpdateTS_cases W key c)
    as [(e & Hf & HU)|[(Hf & Hs & HU)|[(e & Hf & Hs & _ & HU)|(c' & HU & Hf & Hs & _)]]];
    rewrite HU; unfold trace; simpl; in_trace; intuition congruence.
Qed.

Lemma UpdateTS_head (W : cart.World) (key : string) (c : cart.Cart) :
  exists t, trace (cart.UpdateTS W key c) = DbUpdateTS key :: t /\
            forall code, MenuGetVariant code ∉ t.
Proof.
  destruct (UpdateTS_cases W key c)
    as [(e & Hf & HU)|[(Hf & Hs & HU)|[(e & Hf & Hs & _ & HU)|(c' & HU & Hf & Hs & _)]]];
    rewrite HU; unfold trace; simpl; eexists;
    (split; [reflexivity|]); intros code; in_trace; intuition congruence.
Qed.

(** [AddToppings] on a cart with a current order calls no collaborator: it
    edits the order and nothing else. *)
Lemma AddToppings_run (c : cart.Cart) (o : dawg.Order) (product : string)
    (toppings : list string) :
  cart.CurrentOrder c = Some o ->
  cart.AddToppings product toppings c =
    (snd (cart.addToppingsToOrder o product toppings),
     cart.setCurrentOrder c (Some (fst (cart.addToppingsToOrder o product toppings))),
     []).
Proof.
  intros Ho. unfold cart.AddToppings, mbind, M_bind, get, put, mret, M_ret.
  rewrite Ho. now destruct (cart.addToppingsToOrder o product toppings).
Qed.

Lemma AddProducts_run (W : cart.World) (c : cart.Cart) (o : dawg.Order)
    (products : list string) :
  cart.CurrentOrder c = Some o ->
  cart.AddProducts W products c =
    let '(err, c1, t1) := cart.UpdateTS W "menu" c in
    match err with
    | Some e => (Some e, c1, t1)
    | None =>
        let '(menu, c2, t2) := cart.Menu W c1 in
        let '(r, c3, t3) := cart.onOrder o (cart.addProducts menu products) c2 in
        (r, c3, t1 ++ t2 ++ t3)
    end.
Proof.
  intros Ho. unfold cart.AddProducts.
  rewrite bind_run. unfold get at 1. rewrite Ho. simpl.
  rewrite bind_run.
  destruct (cart.UpdateTS W "menu" c) as [[[e|] c1] t1].
  - unfold mret, M_ret. now rewrite app_nil_r.
  - rewrite bind_run.
    destruct (cart.Menu W c1) as [[menu c2] t2].
    now destruct (cart.onOrder o (cart.addProducts menu products) c2) as [[r c3] t3].
Qed.

(** C2, as the code has it. On a cart with a current order, [AddProducts]
    calls the staleness check [UpdateTS] on the "menu" entry before anything
    else, so before any product code is resolved against the catalog; when the
    check fails, its error is returned, no code is resolved and the order is
    the one it was.  [AddToppings] makes no such call: it calls no
    collaborator at all and leaves the database and the menu cache as they
    are; toppings are not resolved against the catalog. *)
Theorem AddProducts_refreshes_first (W : cart.World) (c : cart.Cart) (o : dawg.Order)
    (product : string) (toppings products : list string) :
  cart.CurrentOrder c = Some o ->
  (exists t, trace (cart.AddProducts W products c) = DbUpdateTS "menu" :: t) /\
  (forall e, result (cart.UpdateTS W "menu" c) = Some e ->
     result (cart.AddProducts W products c) = Some e /\
     (forall code, MenuGetVariant code ∉ trace (cart.AddProducts W products c)) /\
     cart.CurrentOrder (final (cart.AddProducts W products c)) = Some o) /\
  (trace (cart.AddToppings product toppings c) = [] /\
   cart.db (final (cart.AddToppings product toppings c)) = cart.db c /\
   cart.menuCacher (final (cart.AddToppings product toppings c)) = cart.menuCacher c).
Proof.
  intros Ho. split; [|split].
  - rewrite (AddProducts_run W c o products Ho).
    destruct (UpdateTS_head W "menu" c) as (t & Ht & _).
    destruct (cart.UpdateTS W "menu" c) as [[[e|] c1] t1];
      unfold trace in *; simpl in Ht; subst t1.
    + eauto.
    + destruct (cart.Menu W c1) as [[menu c2] t2].
      destruct (cart.onOrder o (cart.addProducts menu products) c2) as [[r c3] t3].
      simpl. eauto.
  - intros e He. rewrite (AddProducts_run W c o products Ho).
    destruct (UpdateTS_cases W "menu" c)
      as [(e' & Hf & HU)|[(Hf & Hs & HU)|[(e' & Hf & Hs & _ & HU)|(c' & HU & Hf & Hs & _)]]];
      rewrite HU in *; unfold result, trace, final in *; simpl in *;
      try discriminate; injection He as <-;
      (split; [reflexivity|split; [|assumption]]);
      intros code; in_trace; intuition congruence.
  - rewrite (AddToppings_run c o product toppings Ho).
    unfold trace, final. simpl. auto.
Qed.

Lemma AddProducts_refreshes_first_witness :
  (exists t, trace (cart.AddProducts sample.world ["14SCREEN"] sample.cart1)
             = DbUpdateTS "menu" :: t) /\
  trace (cart.AddToppings "14SCREEN" ["P"] sample.cart1) = [].
Proof.
  destruct (AddProducts_refreshes_first sample.world sample.cart1 sample.order1
              "14SCREEN" ["P"] ["14SCREEN"] eq_refl) as (H1 & _ & H3 & _).
  split; [exact H1 | exact H3].
Defined.

(** The run of [AddProducts] on the sample cart: the check, the fetch it
    triggers, the reading of the menu, the resolution of the code. *)
Example AddProducts_sample_trace :
  trace (cart.AddProducts sample.world ["14SCREEN"] sample.cart1) =
    [DbUpdateTS "menu"; StoreFetchMenu; MenuRead; MenuGetVariant "14SCREEN"] /\
  result (cart.AddProducts sample.world ["14SCREEN"] sample.cart1) = None.
Proof. split; reflexivity. Qed.

(** C2 as stated fails for [AddToppings]: a topping is put on the current
    order and the menu cache is never asked whether it is stale. *)
Lemma AddToppings_no_refresh :
  result (cart.AddToppings "14SCREEN" ["P"] sample.cart1) = None /\
  (DbUpdateTS "menu" ∉ trace (cart.AddToppings "14SCREEN" ["P"] sample.cart1)) /\
  cart.CurrentOrder (final (cart.AddToppings "14SCREEN" ["P"] sample.cart1))
    <> Some sample.order1.
Proof.
  split; [reflexivity|]. split.
  - change (trace (cart.AddToppings "14SCREEN" ["P"] sample.cart1)) with (@nil Event).
    apply not_elem_of_nil.
  - intros H.
    apply (f_equal (fun o => o ≫= fun o => dawg.Products o !! 0%nat
                               ≫= fun p => dawg.Opts p !! "P")) in H.
    vm_compute in H. discriminate H.
Qed.

(** C9. On a cart whose current order is nil, [AddToppings], [AddProducts]
    and [Validate] each return [ErrNoCurrentOrder], "cart has no current
    order set", an error of its own; the cart is left as it is and no
    collaborator is called: not the database, not the menu cache, not the
    ordering API, not the output. *)
Theorem no_current_order (W : cart.World) (c : cart.Cart) (product : string)
    (toppings products : list string) :
  cart.CurrentOrder c = None ->
  cart.AddToppings product toppings c = (Some ErrNoCurrentOrder, c, []) /\
  cart.AddProducts W products c = (Some ErrNoCurrentOrder, c, []) /\
  cart.Validate W c = (Some ErrNoCurrentOrder, c, []) /\
  Error ErrNoCurrentOrder = Some "cart has no current order set" /\
  ErrNoCurrentOrder <> ErrOrderNotFound.
Proof.
  intros Ho.
  unfold cart.AddToppings, cart.AddProducts, cart.Validate,
    mbind, M_bind, get, mret, M_ret.
  rewrite Ho. repeat split. discriminate.
Qed.

Lemma no_current_order_witness :
  cart.AddToppings "14SCREEN" ["P"] sample.cart0 =
    (Some ErrNoCurrentOrder, sample.cart0, []) /\
  cart.AddProducts sample.world ["14SCREEN"] sample.cart0 =
    (Some ErrNoCurrentOrder, sample.cart0, []) /\
  cart.Validate sample.world sample.cart0 =
    (Some ErrNoCurrentOrder, sample.cart0, []).
Proof.
  destruct (no_current_order sample.world sample.cart0 "14SCREEN" ["P"] ["14SCREEN"]
              eq_refl) as (H1 & H2 & H3 & _).
  repeat split; assumption.
Defined.

(** With a current order, [Validate] does write and does call the ordering
    API. *)
Example Validate_sample_trace :
  trace (cart.Validate sample.world sample.cart1) =
    [OutWrite "validating order 'pizza1'..."; ApiValidate "pizza1";
     OutWrite "Order is ok."].
Proof. reflexivity. Qed.

(** ** Listing the saved orders *)

Lemma prefix_app (p s : string) : String.prefix p (p +:+ s) = true.
Proof.
  induction p as [|a p IH]; simpl; [now destruct s|].
  destruct (ascii_dec a a); [exact IH|contradiction].
Qed.

Lemma dropBytes_app (p s : string) :
  strings.dropBytes (String.length p) (p +:+ s) = s.
Proof. induction p as [|a p IH]; simpl; [reflexivity|exact IH]. Qed.

(** Passing over [k] bytes is scanning the rest of the string. *)
Lemma replaceFrom_skip (old new : string) (k : nat) (s : string) :
  strings.replaceFrom old new k s =
  strings.replaceFrom old new 0 (strings.dropBytes k s).
Proof.
  revert k. induction s as [|c t IH]; intros [|k]; simpl; try reflexivity.
  apply IH.
Qed.

Lemma ReplaceAll_scan (old new s : string) :
  old <> "" -> strings.ReplaceAll s old new = strings.replaceFrom old new 0 s.
Proof. destruct old; [congruence|reflexivity]. Qed.

(** The three equations of the scan: an occurrence at the front is replaced
    and the scan goes on behind it; any other byte is kept. *)
Lemma ReplaceAll_nil (old new : string) :
  old <> "" -> strings.ReplaceAll "" old new = "".
Proof. intros H. now rewrite ReplaceAll_scan. Qed.

Lemma ReplaceAll_occurrence (old new s : string) :
  old <> "" ->
  strings.ReplaceAll (old +:+ s) old new = new +:+ strings.ReplaceAll s old new.
Proof.
  intros Hne. rewrite !ReplaceAll_scan by assumption.
  pose proof (prefix_app old s) as Hp.
  pose proof (dropBytes_app old s) as Hd.
  destruct old as [|a p]; [congruence|].
  change (String a p +:+ s) with (String a (p +:+ s)) in *.
  cbn [strings.replaceFrom]. rewrite Hp.
  rewrite replaceFrom_skip.
  simpl in Hd. simpl String.length.
  replace (S (String.length p) - 1) with (String.length p) by lia.
  now rewrite Hd.
Qed.

Lemma ReplaceAll_other (old new : string) (c : ascii) (t : string) :
  old <> "" -> String.prefix old (String c t) = false ->
  strings.ReplaceAll (String c t) old new = String c (strings.ReplaceAll t old new).
Proof.
  intros Hne Hp. rewrite !ReplaceAll_scan by assumption.
  cbn [strings.replaceFrom]. now rewrite Hp.
Qed.

(** A string without occurrence is left as it is. *)
Lemma ReplaceAll_absent (old new s : string) :
  old <> "" -> strings.Contains s old = false ->
  strings.ReplaceAll s old new = s.
Proof.
  intros Hne. induction s as [|c t IH]; intros Hc.
  - now apply ReplaceAll_nil.
  - cbn [strings.Contains] in Hc. apply orb_false_iff in Hc as [Hp Ht].
    rewrite ReplaceAll_other by assumption. now rewrite IH.
Qed.

Lemma remove_length_le (old : string) (k : nat) (s : string) :
  String.length (strings.replaceFrom old "" k s) <= String.length s - k.
Proof.
  revert k. induction s as [|c t IH]; intros k; [simpl; lia|].
  destruct k as [|k]; cbn [strings.replaceFrom].
  - destruct (String.prefix old (String c t)); simpl.
    + change ("" +:+ strings.replaceFrom old "" (String.length old - 1) t)
        with (strings.replaceFrom old "" (String.length old - 1) t).
      specialize (IH (String.length old - 1)). lia.
    + specialize (IH 0). lia.
  - simpl. apply IH.
Qed.

(** Removing the occurrences of a string that occurs makes the string
    shorter. *)
Lemma remove_shorter (old s : string) :
  old <> "" -> strings.Contains s old = true ->
  String.length (strings.ReplaceAll s old "") < String.length s.
Proof.
  intros Hne. rewrite ReplaceAll_scan by assumption.
  induction s as [|c t IH]; intros Hc.
  - destruct old; [congruence|discriminate].
  - cbn [strings.Contains] in Hc. cbn [strings.replaceFrom].
    destruct (String.prefix old (String c t)) eqn:Hp.
    + change ("" +:+ strings.replaceFrom old "" (String.length old - 1) t)
        with (strings.replaceFrom old "" (String.length old - 1) t).
      pose proof (remove_length_le old (String.length old - 1) t). simpl. lia.
    + simpl in Hc. simpl. specialize (IH Hc). lia.
Qed.

Lemma collectName_elem (ks acc : list string) (name : string) :
  name ∈ foldl cart.collectName acc ks <->
  name ∈ acc \/
  exists k, k ∈ ks /\ strings.HasPrefix k data.OrderPrefix = true /\
            name = strings.ReplaceAll k data.OrderPrefix "".
Proof.
  revert acc. induction ks as [|k ks IH]; intros acc; simpl.
  - split; [auto|]. intros [H|(k & Hk & _)]; [exact H|].
    now apply elem_of_nil in Hk.
  - rewrite IH. unfold cart.collectName.
    destruct (strings.HasPrefix k data.OrderPrefix) eqn:Hp.
    + rewrite elem_of_app, list_elem_of_singleton. split.
      * intros [[H | ->] | (k' & Hk' & Hp' & ->)]; auto.
        -- right. exists k. split; [apply elem_of_cons; auto|auto].
        -- right. exists k'. split; [apply elem_of_cons; auto|auto].
      * intros [H|(k' & Hk' & Hp' & ->)]; auto.
        apply elem_of_cons in Hk' as [ -> | Hk']; auto.
        right. eauto.
    + split.
      * intros [H|(k' & Hk' & Hp' & ->)]; auto.
        right. exists k'. split; [apply elem_of_cons; auto|auto].
      * intros [H|(k' & Hk' & Hp' & ->)]; auto.
        apply elem_of_cons in Hk' as [ -> | Hk']; [congruence|].
        right. eauto.
Qed.

Lemma keys_elem {A} (m : gmap string A) (k : string) :
  k ∈ (fst <$> map_to_list m) <-> is_Some (m !! k).
Proof.
  rewrite list_elem_of_fmap. split.
  - intros ([k' x] & -> & H). apply elem_of_map_to_list in H. simpl. eauto.
  - intros [x H]. exists (k, x). split; [reflexivity|].
    now apply elem_of_map_to_list.
Qed.

Lemma OrderPrefix_not_empty : data.OrderPrefix <> "".
Proof. discriminate. Qed.

(** C10. [Cart.ListOrders] lists a name for the keys that begin with
    "user_order_" and for no other key, and the name is the key with every
    occurrence of "user_order_" removed: for the key of a saved order that is
    the order's name with every occurrence removed too.  A saved order whose
    name holds "user_order_" is therefore listed under another name than its
    own, and one whose name holds none under its own. *)
Theorem ListOrders_names (c : cart.Cart) :
  cache.fault (cart.db c) = None ->
  exists names,
    cart.ListOrders c = ((names, None), c, [DbMap]) /\
    (forall name, name ∈ names <->
       exists k, is_Some (cache.kv (cart.db c) !! k) /\
                 strings.HasPrefix k data.OrderPrefix = true /\
                 name = strings.ReplaceAll k data.OrderPrefix "") /\
    (forall stored,
       strings.ReplaceAll (data.OrderPrefix +:+ stored) data.OrderPrefix "" =
       strings.ReplaceAll stored data.OrderPrefix "") /\
    (forall stored,
       is_Some (cache.kv (cart.db c) !! (data.OrderPrefix +:+ stored)) ->
       strings.ReplaceAll stored data.OrderPrefix "" ∈ names) /\
    (forall stored, strings.Contains stored data.OrderPrefix = true ->
       strings.ReplaceAll stored data.OrderPrefix "" <> stored) /\
    (forall stored, strings.Contains stored data.OrderPrefix = false ->
       strings.ReplaceAll stored data.OrderPrefix "" = stored).
Proof.
  intros Hf.
  assert (Hstrip : forall stored,
    strings.ReplaceAll (data.OrderPrefix +:+ stored) data.OrderPrefix "" =
    strings.ReplaceAll stored data.OrderPrefix "").
  { intros stored. now rewrite ReplaceAll_occurrence by apply OrderPrefix_not_empty. }
  assert (Hnames : forall name,
    name ∈ foldl cart.collectName [] (fst <$> map_to_list (cache.kv (cart.db c))) <->
    exists k, is_Some (cache.kv (cart.db c) !! k) /\
              strings.HasPrefix k data.OrderPrefix = true /\
              name = strings.ReplaceAll k data.OrderPrefix "").
  { intros name. rewrite collectName_elem. split.
    - intros [H|(k & Hk & Hp & ->)]; [now apply elem_of_nil in H|].
      exists k. now rewrite <- keys_elem.
    - intros (k & Hk & Hp & ->). right. exists k. now rewrite keys_elem. }
  eexists. split.
  { unfold cart.ListOrders, mbind, M_bind, emit, get, mret, M_ret, cache.Map.
    rewrite Hf. reflexivity. }
  split; [exact Hnames|]. split; [exact Hstrip|]. split; [|split].
  - intros stored Hs. apply Hnames. exists (data.OrderPrefix +:+ stored).
    split; [exact Hs|]. split; [apply prefix_app|]. symmetry. apply Hstrip.
  - intros stored Hc Heq.
    pose proof (remove_shorter data.OrderPrefix stored OrderPrefix_not_empty Hc) as Hlt.
    rewrite Heq in Hlt. lia.
  - intros stored Hc. now apply ReplaceAll_absent.
Qed.

Lemma ListOrders_names_witness :
  exists names,
    cart.ListOrders sample.cartList = ((names, None), sample.cartList, [DbMap]) /\
    "pizza1" ∈ names /\ "my_x" ∈ names.
Proof.
  destruct (ListOrders_names sample.cartList eq_refl)
    as (names & Hrun & _ & _ & Hin & _).
  exists names. split; [exact Hrun|].
  split.
  - apply (Hin "pizza1"). eexists. reflexivity.
  - apply (Hin "my_user_order_x"). eexists. reflexivity.
Defined.

(** The listing of the sample database: the order saved as
    "my_user_order_x" is listed as "my_x"; the key that holds the prefix
    without beginning with it is not listed.  [data.PrintOrders], which
    tests for the prefix anywhere in the key, prints that key too. *)
Example ListOrders_sample :
  result (cart.ListOrders sample.cartList) = (["my_x"; "pizza1"], None) /\
  data.PrintOrders sample.listDb =
    (["Your Orders:"; "  old_y"; "  my_x"; "  pizza1"], None).
Proof. split; vm_compute; reflexivity. Qed.

(** ** The user profile *)

Lemma validService_iff (service : string) :
  user.validService service = true <->
  service = dawg.Delivery \/ service = dawg.Carryout.
Proof.
  unfold user.validService. rewrite orb_true_iff, !String.eqb_eq. reflexivity.
Qed.

Lemma memoFor_iff (s : user.Store) (addr : dawg.StreetAddr) (service : string) :
  user.memoFor s addr service = true <->
  user.userAddress s = addr /\ user.userService s = service.
Proof.
  unfold user.memoFor.
  rewrite andb_true_iff, bool_decide_eq_true, String.eqb_eq. reflexivity.
Qed.

(** A proximity lookup leaves exactly one event, and what it finds is
    memoized on the user under the address and service method asked for. *)
Lemma lookupStore_run (api : dawg.StreetAddr -> string -> error + string)
    (addr : dawg.StreetAddr) (service : string) (h : user.Heap) :
  trace (user.lookupStore api addr service h) = [ApiNearestStore service] /\
  forall s h1 t,
    user.lookupStore api addr service h = ((Some s, None), h1, t) ->
    user.store (user.profile h1) = Some s /\
    user.Addresses (user.profile h1) = user.Addresses (user.profile h) /\
    user.userAddress s = addr /\ user.userService s = service /\
    user.ref s = user.nextRef h /\ user.nextRef h1 = S (user.nextRef h).
Proof.
  unfold user.lookupStore, mbind, M_bind, emit, get, put, mret, M_ret, trace.
  destruct (api addr service) as [e|id]; simpl; split; try reflexivity.
  - intros s h1 t [=].
  - intros s h1 t [= <- <- _]. simpl. repeat split.
Qed.

(** A successful call leaves the store it returns memoized for the default
    address and the service method of the call. *)
Lemma NearestStore_success (api : dawg.StreetAddr -> string -> error + string)
    (service : string) (h h1 : user.Heap) (s : user.Store) (t : list Event) :
  user.NearestStore api service h = ((Some s, None), h1, t) ->
  user.validService service = true /\
  user.store (user.profile h1) = Some s /\
  user.DefaultAddress (user.profile h1) = Some (user.userAddress s) /\
  user.userService s = service.
Proof.
  unfold user.NearestStore. rewrite bind_run. unfold get at 1.
  destruct (user.DefaultAddress (user.profile h)) as [addr|] eqn:Ha;
    [|intros [=]].
  destruct (user.validService service) eqn:Hv; simpl; [|intros [=]].
  assert (Hlook : forall t',
            user.lookupStore api addr service h = ((Some s, None), h1, t') ->
            true = true /\ user.store (user.profile h1) = Some s /\
            user.DefaultAddress (user.profile h1) = Some (user.userAddress s) /\
            user.userService s = service).
  { intros t' Hr.
    destruct (lookupStore_run api addr service h) as [_ H].
    destruct (H s h1 t' Hr) as (Hs & Hadd & Hua & Hus & _).
    unfold user.DefaultAddress in *. rewrite Hadd, Ha, Hua. auto. }
  destruct (user.store (user.profile h)) as [m|] eqn:Hm.
  - destruct (user.memoFor m addr service) eqn:Hmemo.
    + unfold mret, M_ret. intros [= <- <- _].
      apply memoFor_iff in Hmemo as [Hua Hus].
      rewrite Hm, Ha, Hua. auto.
    + destruct (user.lookupStore api addr service h) as [[r1 r2] r3].
      simpl. intros [= -> -> _]. now apply (Hlook r3).
  - destruct (user.lookupStore api addr service h) as [[r1 r2] r3].
    simpl. intros [= -> -> _]. now apply (Hlook r3).
Qed.

(** C7. After a successful [NearestStore(service)], the store is memoized
    on the user, and a second call with the address and the service method
    unchanged returns that same store (the same [ref], so the same pointer)
    without asking the ordering API: its trace is empty.  A call with another
    valid service method, or with the memo in place and another default
    address, asks the ordering API again, and the store it finds takes the
    place of the memoized one. *)
Theorem NearestStore_memoized (api : dawg.StreetAddr -> string -> error + string)
    (service : string) (h h1 : user.Heap) (s : user.Store) (t : list Event) :
  user.NearestStore api service h = ((Some s, None), h1, t) ->
  user.store (user.profile h1) = Some s /\
  user.NearestStore api service h1 = ((Some s, None), h1, []) /\
  (forall service',
     user.validService service' = true -> service' <> service ->
     trace (user.NearestStore api service' h1) = [ApiNearestStore service']) /\
  (forall service' s' h2 t',
     service' <> service ->
     user.NearestStore api service' h1 = ((Some s', None), h2, t') ->
     user.store (user.profile h2) = Some s' /\ s' <> s) /\
  (forall h2 addr',
     user.store (user.profile h2) = Some s ->
     user.DefaultAddress (user.profile h2) = Some addr' ->
     addr' <> user.userAddress s ->
     trace (user.NearestStore api service h2) = [ApiNearestStore service]).
Proof.
  intros Hrun.
  destruct (NearestStore_success api service h h1 s t Hrun) as (Hv & Hs & Ha & Hus).
  split; [exact Hs|]. split; [|split; [|split]].
  - unfold user.NearestStore. rewrite bind_run. unfold get at 1.
    rewrite Ha, Hv, Hs. simpl.
    assert (Hm : user.memoFor s (user.userAddress s) service = true)
      by (apply memoFor_iff; auto).
    rewrite Hm. reflexivity.
  - intros service' Hv' Hne.
    unfold user.NearestStore. rewrite bind_run. unfold get at 1.
    rewrite Ha, Hv', Hs. simpl.
    assert (Hm : user.memoFor s (user.userAddress s) service' = false).
    { destruct (user.memoFor s (user.userAddress s) service') eqn:E; [|reflexivity].
      apply memoFor_iff in E as [_ E]. congruence. }
    rewrite Hm.
    destruct (lookupStore_run api (user.userAddress s) service' h1) as [Ht _].
    destruct (user.lookupStore api (user.userAddress s) service' h1) as [[r1 r2] r3].
    exact Ht.
  - intros service' s' h2 t' Hne Hrun'.
    destruct (NearestStore_success api service' h1 h2 s' t' Hrun')
      as (_ & Hs' & _ & Hus').
    split; [exact Hs'|]. congruence.
  - intros h2 addr' Hs2 Ha2 Hne.
    unfold user.NearestStore. rewrite bind_run. unfold get at 1.
    rewrite Ha2, Hv, Hs2. simpl.
    assert (Hm : user.memoFor s addr' service = false).
    { destruct (user.memoFor s addr' service) eqn:E; [|reflexivity].
      apply memoFor_iff in E as [E _]. congruence. }
    rewrite Hm.
    destruct (lookupStore_run api addr' service h2) as [Ht _].
    destruct (user.lookupStore api addr' service h2) as [[r1 r2] r3].
    exact Ht.
Qed.

Lemma NearestStore_memoized_witness :
  exists s h1,
    user.NearestStore sample.api dawg.Delivery sample.heap0 =
      ((Some s, None), h1, [ApiNearestStore dawg.Delivery]) /\
    user.store (user.profile h1) = Some s /\
    user.NearestStore sample.api dawg.Delivery h1 = ((Some s, None), h1, []) /\
    trace (user.NearestStore sample.api dawg.Carryout h1) =
      [ApiNearestStore dawg.Carryout].
Proof.
  eexists _, _. split; [reflexivity|].
  destruct (NearestStore_memoized sample.api dawg.Delivery sample.heap0 _ _ _ eq_refl)
    as (H1 & H2 & H3 & _ & _).
  split; [exact H1|]. split; [exact H2|].
  apply H3; [reflexivity | discriminate].
Defined.

(** The run of [TestUserNearestStore]: no store before the first call, one
    lookup at the first call, the memoized store at the second. *)
Example NearestStore_test_run :
  user.store (user.profile sample.heap0) = None /\
  user.DefaultAddress (user.AddAddress
     {| user.Addresses := []; user.ServiceMethod := ""; user.store := None |}
     sample.homeA) = Some sample.homeA /\
  user.DefaultAddress
     {| user.Addresses := []; user.ServiceMethod := ""; user.store := None |} = None /\
  let r1 := user.NearestStore sample.api dawg.Delivery sample.heap0 in
  let r2 := user.NearestStore sample.api dawg.Delivery (final r1) in
  trace r1 = [ApiNearestStore dawg.Delivery] /\
  trace r2 = [] /\
  fst (result r2) = user.store (user.profile (final r2)) /\
  result r2 = result r1.
Proof. repeat split. Qed.

(** C8. [SetServiceMethod] with a value that is neither delivery nor
    carryout, the empty string included, fails with [ErrBadService] and leaves
    the profile, so the current service method, as it was. *)
Theorem SetServiceMethod_bad (u : user.UserProfile) (service : string) :
  service <> dawg.Delivery -> service <> dawg.Carryout ->
  user.SetServiceMethod u service = (u, Some ErrBadService) /\
  user.ServiceMethod (fst (user.SetServiceMethod u service)) = user.ServiceMethod u /\
  user.SetServiceMethod u "" = (u, Some ErrBadService).
Proof.
  intros Hd Hc. unfold user.SetServiceMethod.
  destruct (user.validService service) eqn:Hv.
  - apply validService_iff in Hv as [?|?]; contradiction.
  - repeat split.
Qed.

Lemma SetServiceMethod_bad_witness :
  user.SetServiceMethod (user.profile sample.heap0) "not correct" =
    (user.profile sample.heap0, Some ErrBadService) /\
  user.SetServiceMethod (user.profile sample.heap0) "invalid" =
    (user.profile sample.heap0, Some ErrBadService).
Proof.
  split.
  - apply (SetServiceMethod_bad (user.profile sample.heap0) "not correct");
      discriminate.
  - apply (SetServiceMethod_bad (user.profile sample.heap0) "invalid");
      discriminate.
Defined.

(** The two values of the enumeration are accepted and become the current
    service method. *)
Example SetServiceMethod_good :
  forall u,
    user.ServiceMethod (fst (user.SetServiceMethod u dawg.Delivery)) = dawg.Delivery /\
    snd (user.SetServiceMethod u dawg.Delivery) = None /\
    user.ServiceMethod (fst (user.SetServiceMethod u dawg.Carryout)) = dawg.Carryout /\
    snd (user.SetServiceMethod u dawg.Carryout) = None.
Proof. intros u. repeat split. Qed.

(** * Further properties *)

(** ** The parsed topping *)

Lemma placement_colonFree (side : string) :
  spec.colonFree side -> spec.colonFree (spec.placement side).
Proof.
  intros H. unfold spec.placement.
  destruct (String.eqb _ "left"); [reflexivity|].
  destruct (String.eqb _ "right"); [reflexivity|].
  destruct (String.eqb _ "full"); [reflexivity|exact H].
Qed.

(** Mapping a side twice is mapping it once: the three constants are no
    keywords themselves. *)
Lemma placement_idempotent (side : string) :
  spec.placement (spec.placement side) = spec.placement side.
Proof.
  unfold spec.placement.
  destruct (String.eqb (strings.ToLower side) "left") eqn:E1; [reflexivity|].
  destruct (String.eqb (strings.ToLower side) "right") eqn:E2; [reflexivity|].
  destruct (String.eqb (strings.ToLower side) "full") eqn:E3; [reflexivity|].
  now rewrite E1, E2, E3.
Qed.

Lemma Join_head_prefix (f : string) (fs : list string) (sep : ascii) :
  String.prefix f (strings.Join (f :: fs) sep) = true.
Proof.
  destruct fs as [|g gs].
  - simpl. induction f as [|a f IH]; simpl; [reflexivity|].
    destruct (ascii_dec a a); [exact IH|contradiction].
  - change (strings.Join (f :: g :: gs) sep)
      with (f +:+ String sep (strings.Join (g :: gs) sep)).
    apply prefix_app.
Qed.

Lemma toppingSpec_success_parts (topStr name side amount : string) :
  cart.toppingSpec topStr = inr (name, side, amount) ->
  name <> "" /\
  String.prefix name topStr = true /\
  spec.colonFree name /\ spec.colonFree side /\ spec.colonFree amount /\
  (strings.countByte topStr ":" < 2 -> amount = "1.0") /\
  (strings.countByte topStr ":" = 0 -> side = dawg.ToppingFull).
Proof.
  rewrite toppingSpec_refines.
  pose proof (Join_Split ":" topStr) as HJ.
  pose proof (Split_length ":" topStr) as HL.
  pose proof (Split_fields_free ":" topStr) as HF.
  destruct (strings.Split topStr ":") as [|f [|s1 [|a1 [|x xs]]]]; simpl;
    try discriminate;
    destruct (String.eqb_spec f "") as [E|N]; try discriminate;
    intros [= <- <- <-].
  - repeat split; auto; try reflexivity.
    + rewrite <- HJ. apply (Join_head_prefix f []).
    + apply HF. now left.
  - repeat split; auto; try reflexivity.
    + rewrite <- HJ. apply (Join_head_prefix f [s1]).
    + apply HF. now left.
    + apply placement_colonFree, HF. right. now left.
    + simpl in HL. intros H. lia.
  - repeat split; auto.
    + rewrite <- HJ. apply (Join_head_prefix f [s1; a1]).
    + apply HF. now left.
    + apply placement_colonFree, HF. right. now left.
    + apply HF. right. right. now left.
    + simpl in HL. intros H. lia.
    + simpl in HL. intros H. lia.
Qed.

(** X1. What a successful parse returns: a name that is not empty and is
    the start of the input, and three parts without colon; with fewer than
    three fields the amount is "1.0", with one field the placement is the
    whole. *)
Theorem toppingSpec_parts (topStr name side amount : string) :
  cart.toppingSpec topStr = inr (name, side, amount) ->
  name <> "" /\
  String.prefix name topStr = true /\
  spec.colonFree name /\ spec.colonFree side /\ spec.colonFree amount /\
  (strings.countByte topStr ":" < 2 -> amount = "1.0") /\
  (strings.countByte topStr ":" = 0 -> side = dawg.ToppingFull).
Proof. apply toppingSpec_success_parts. Qed.

Lemma toppingSpec_parts_witness :
  "basil" <> "" /\
  String.prefix "basil" "basil:Right:0.5" = true /\
  spec.colonFree "basil" /\ spec.colonFree dawg.ToppingRight /\
  spec.colonFree "0.5" /\
  (strings.countByte "basil:Right:0.5" ":" < 2 -> "0.5" = "1.0") /\
  (strings.countByte "basil:Right:0.5" ":" = 0 -> dawg.ToppingRight = dawg.ToppingFull).
Proof.
  apply (toppingSpec_parts "basil:Right:0.5" "basil" dawg.ToppingRight "0.5").
  reflexivity.
Defined.

(** X2. The parsed topping is a normal form: written out in full, as
    name:side:amount, it parses to itself. *)
Theorem toppingSpec_normal_form (topStr name side amount : string) :
  cart.toppingSpec topStr = inr (name, side, amount) ->
  cart.toppingSpec (name +:+ ":" +:+ side +:+ ":" +:+ amount) =
    inr (name, side, amount).
Proof.
  intros H.
  assert (Hside : spec.placement side = side).
  { revert H. rewrite toppingSpec_refines.
    destruct (strings.Split topStr ":") as [|f [|s1 [|a1 [|x xs]]]]; simpl;
      try discriminate;
      destruct (String.eqb f ""); try discriminate;
      intros [= _ <- _]; [reflexivity|apply placement_idempotent..]. }
  destruct (toppingSpec_success_parts _ _ _ _ H) as (Hne & _ & Hn & Hs & Ha & _).
  pose proof (toppingSpec_Join [name; side; amount]) as HJ.
  simpl in HJ. destruct (String.eqb_spec name ""); [contradiction|].
  rewrite Hside in HJ. apply HJ; [discriminate|].
  repeat constructor; assumption.
Qed.

Lemma toppingSpec_normal_form_witness :
  cart.toppingSpec "olive:LEFT" = inr ("olive", dawg.ToppingLeft, "1.0") /\
  cart.toppingSpec "olive:1/2:1.0" = inr ("olive", dawg.ToppingLeft, "1.0").
Proof.
  split; [reflexivity|].
  apply (toppingSpec_normal_form "olive:LEFT" "olive" dawg.ToppingLeft "1.0").
  reflexivity.
Defined.

(** ** Toppings on an order: when it succeeds *)

(** One round of the loop on an order that holds the product: the item is
    the parsed topping richer, or the round fails and the order is as it
    was. *)
Lemma addTopping_cases (top : string) (p : dawg.OrderProduct) :
  (exists e, cart.toppingSpec top = inl e /\ cart.addTopping top p = (p, Some e)) \/
  (exists name side amount,
     cart.toppingSpec top = inr (name, side, amount) /\
     cart.addTopping top p =
       (spec.withOpts p (<[name := (side, amount)]> (dawg.Opts p)), None)).
Proof.
  unfold cart.addTopping.
  destruct (cart.toppingSpec top) as [e|[[name side] amount]]; [left|right]; eauto.
Qed.

(** The loop on an order that holds the product.  With [Item.AddTopping] as
    it is modelled, an upsert that returns no error, the loop returns no
    error exactly when every topping parses.  The direction from left to
    right does not depend on that: a topping that does not parse stops the
    loop with the format error, whatever the item would do with it. *)
Lemma addToppingsLoop_ok_iff (product : string) (toppings : list string) :
  forall (o : dawg.Order) (i : nat),
  cart.getOrderItem o product = Some i ->
  snd (cart.addToppingsLoop o product toppings) = None <->
  Forall (fun top => exists t, cart.toppingSpec top = inr t) toppings.
Proof.
  induction toppings as [|top rest IH]; intros o i Hi; simpl.
  - split; [constructor|reflexivity].
  - rewrite Hi. pose proof Hi as Hi'. unfold cart.getOrderItem in Hi'.
    destruct (findItem_lookup _ _ _ Hi') as (p & Hp & Hc). rewrite Hp.
    rewrite Forall_cons.
    destruct (addTopping_cases top p)
      as [(e & He & ->)|(name & side & amount & Hn & ->)]; simpl.
    + split; [discriminate|]. intros [[t Ht] _]. congruence.
    + assert (Hi1 : cart.getOrderItem
                (dawg.setProducts o
                   (<[i := spec.withOpts p (<[name := (side, amount)]> (dawg.Opts p))]>
                      (dawg.Products o))) product = Some i).
      { unfold cart.getOrderItem. simpl. apply findItem_insert; assumption. }
      rewrite (IH _ i Hi1). split; [intros H; split; eauto|now intros [_ H]].
Qed.

(** X5. [addToppingsToOrder] returns no error only when a product is named
    and either there is no topping to add, or the product is in the order and
    every topping parses.  With no product named it always fails; with a
    product named and no topping it succeeds and leaves the order as it is,
    also for a product that is not in the order. *)
Theorem addToppingsToOrder_ok_only_if (o : dawg.Order) (product : string)
    (toppings : list string) :
  (snd (cart.addToppingsToOrder o product toppings) = None ->
   product <> "" /\
   (toppings = [] \/
    (is_Some (cart.getOrderItem o product) /\
     Forall (fun top => exists t, cart.toppingSpec top = inr t) toppings))) /\
  cart.addToppingsToOrder o "" toppings = (o, Some ErrNoProductGiven) /\
  (product <> "" -> cart.addToppingsToOrder o product [] = (o, None)).
Proof.
  split; [|split; [reflexivity|]].
  - unfold cart.addToppingsToOrder.
    destruct (String.eqb_spec product "") as [->|Hne]; simpl; [discriminate|].
    destruct (cart.getOrderItem o product) as [i|] eqn:Hi.
    + rewrite (addToppingsLoop_ok_iff product toppings o i Hi).
      intros H. split; [exact Hne|]. right. split; [eauto|exact H].
    + destruct toppings as [|top rest]; simpl.
      * intros _. split; [exact Hne|now left].
      * rewrite Hi. discriminate.
  - intros Hne. unfold cart.addToppingsToOrder.
    destruct (String.eqb_spec product ""); [contradiction|reflexivity].
Qed.

Lemma addToppingsToOrder_ok_only_if_witness :
  ("14SCREEN" <> "" /\
   (["P"; "K:left"] = [] \/
    (is_Some (cart.getOrderItem sample.order1 "14SCREEN") /\
     Forall (fun top => exists t, cart.toppingSpec top = inr t) ["P"; "K:left"]))) /\
  cart.addToppingsToOrder sample.order1 "10THIN" [] = (sample.order1, None).
Proof.
  destruct (addToppingsToOrder_ok_only_if sample.order1 "14SCREEN" ["P"; "K:left"])
    as (H1 & _ & _).
  destruct (addToppingsToOrder_ok_only_if sample.order1 "10THIN" [])
    as (_ & _ & H3).
  split; [apply H1; reflexivity | apply H3; discriminate].
Defined.

(** ** Products on an order *)

Lemma setProducts_app (o : dawg.Order) (ps qs : list dawg.OrderProduct) :
  dawg.setProducts (dawg.setProducts o (dawg.Products o ++ ps))
    (dawg.Products (dawg.setProducts o (dawg.Products o ++ ps)) ++ qs) =
  dawg.setProducts o (dawg.Products o ++ ps ++ qs).
Proof. simpl. unfold dawg.setProducts. simpl. now rewrite app_assoc. Qed.

Lemma addProducts_step_found (menu : dawg.Menu) (code : string) (itm : dawg.OrderProduct)
    (rest : list string) (o : dawg.Order) :
  dawg.Variants menu !! code = Some itm ->
  cart.addProducts menu (code :: rest) o =
    let '(r, o', t) :=
      cart.addProducts menu rest (dawg.setProducts o (dawg.Products o ++ [itm])) in
    (r, o', MenuGetVariant code :: t).
Proof.
  intros Hv. cbn [cart.addProducts].
  unfold mbind, M_bind, emit, get, put, dawg.GetVariant, dawg.AddProduct.
  rewrite Hv. simpl.
  now destruct (cart.addProducts menu rest _) as [[r o'] t].
Qed.

Lemma addProducts_step_missing (menu : dawg.Menu) (code : string)
    (rest : list string) (o : dawg.Order) :
  dawg.Variants menu !! code = None ->
  cart.addProducts menu (code :: rest) o =
    (Some (ErrVariantNotFound code), o, [MenuGetVariant code]).
Proof.
  intros Hv. cbn [cart.addProducts].
  unfold mbind, M_bind, emit, get, put, mret, M_ret, dawg.GetVariant.
  now rewrite Hv.
Qed.

(** X6. [addProducts] resolves the codes in order and appends each item it
    finds.  When the menu has every code, the order ends with the items found,
    in that order, and one lookup was made per code.  At the first code the
    menu does not have it stops with the error of the lookup: the items found
    before are on the order by then, and no code behind the missing one is
    looked up. *)
Theorem addProducts_run (menu : dawg.Menu) (found rest : list string)
    (items : list dawg.OrderProduct) (o : dawg.Order) :
  Forall2 (fun code itm => dawg.Variants menu !! code = Some itm) found items ->
  cart.addProducts menu found o =
    (None, dawg.setProducts o (dawg.Products o ++ items), MenuGetVariant <$> found) /\
  (forall missing, dawg.Variants menu !! missing = None ->
   cart.addProducts menu (found ++ missing :: rest) o =
     (Some (ErrVariantNotFound missing),
      dawg.setProducts o (dawg.Products o ++ items),
      MenuGetVariant <$> (found ++ [missing]))).
Proof.
  intros Hall. revert o.
  induction Hall as [|code itm found items Hv _ IH]; intros o.
  - split.
    + simpl. unfold mret, M_ret. rewrite app_nil_r. now rewrite setProducts_same.
    + intros missing Hm. simpl app. rewrite addProducts_step_missing by assumption.
      rewrite app_nil_r. now rewrite setProducts_same.
  - destruct (IH (dawg.setProducts o (dawg.Products o ++ [itm]))) as [IH1 IH2].
    split.
    + rewrite (addProducts_step_found menu code itm) by assumption. rewrite IH1.
      rewrite setProducts_app. reflexivity.
    + intros missing Hm. simpl app.
      rewrite (addProducts_step_found menu code itm) by assumption.
      rewrite (IH2 missing Hm).
      rewrite setProducts_app. reflexivity.
Qed.

Lemma addProducts_run_witness :
  cart.addProducts sample.menu ["14SCREEN"; "14SCREEN"] sample.order1 =
    (None,
     dawg.setProducts sample.order1
       (dawg.Products sample.order1 ++ [sample.pizza; sample.pizza]),
     MenuGetVariant <$> ["14SCREEN"; "14SCREEN"]) /\
  cart.addProducts sample.menu (["14SCREEN"] ++ "10THIN" :: ["14SCREEN"]) sample.order1 =
    (Some (ErrVariantNotFound "10THIN"),
     dawg.setProducts sample.order1 (dawg.Products sample.order1 ++ [sample.pizza]),
     MenuGetVariant <$> (["14SCREEN"] ++ ["10THIN"])).
Proof.
  assert (Hp : dawg.Variants sample.menu !! "14SCREEN" = Some sample.pizza)
    by (vm_compute; reflexivity).
  assert (Hn : dawg.Variants sample.menu !! "10THIN" = None)
    by (vm_compute; reflexivity).
  assert (H1 : Forall2 (fun code itm => dawg.Variants sample.menu !! code = Some itm)
                 ["14SCREEN"] [sample.pizza])
    by (repeat constructor; exact Hp).
  assert (H2 : Forall2 (fun code itm => dawg.Variants sample.menu !! code = Some itm)
                 ["14SCREEN"; "14SCREEN"] [sample.pizza; sample.pizza])
    by (repeat constructor; exact Hp).
  split.
  - exact (proj1 (addProducts_run sample.menu ["14SCREEN"; "14SCREEN"] []
                    [sample.pizza; sample.pizza] sample.order1 H2)).
  - exact (proj2 (addProducts_run sample.menu ["14SCREEN"] ["14SCREEN"]
                    [sample.pizza] sample.order1 H1) "10THIN" Hn).
Defined.

(** ** Loading, saving and deleting orders *)

Lemma append_inj_l (p a b : string) : p +:+ a = p +:+ b -> a = b.
Proof.
  induction p as [|c p IH]; simpl; [auto|].
  intros [= H]. auto.
Qed.

Lemma OrderPrefix_key_ne (a b : string) :
  a <> b -> data.OrderPrefix +:+ a <> data.OrderPrefix +:+ b.
Proof. intros Hne H. apply Hne. exact (append_inj_l _ _ _ H). Qed.

(** [cart.GetOrder] unfolded: one read of the database, and the cart left
    as it is. *)
Lemma GetOrder_run (c : cart.Cart) (name : string) :
  cart.GetOrder name c =
    (match cache.Get (cart.db c) (data.OrderPrefix +:+ name) with
     | (_, Some err) => (None, Some err)
     | (raw, None) =>
         if json.lenIsZero raw then (None, Some ErrOrderNotFound)
         else
           let '(order, err) :=
             json.Unmarshal raw
               (dawg.setAddress (dawg.SetName (dawg.Init dawg.zeroOrder) name)
                  (dawg.StreetAddrFromAddress (cart.finderAddress (cart.finder c)))) in
           (Some order, err)
     end, c, [DbGet (data.OrderPrefix +:+ name)]).
Proof.
  unfold cart.GetOrder, mbind, M_bind, emit, get, mret, M_ret.
  destruct (cache.Get (cart.db c) (data.OrderPrefix +:+ name)) as [raw [err|]];
    [reflexivity|].
  destruct (json.lenIsZero raw); [reflexivity|].
  now destruct (json.Unmarshal raw _) as [order err].
Qed.

(** X7. What [Cart.GetOrder] does when there is no order to load.  It never
    changes the cart and reads one key.  A failing database gives its error
    and no order; a key that is absent or holds no bytes gives
    [ErrOrderNotFound] and no order; bytes that are no JSON text give the
    decoding error together with an order that is not nil: the blank order
    with the requested name and the live address.  No order never comes
    without an error. *)
Theorem GetOrder_outcomes (c : cart.Cart) (name : string) :
  final (cart.GetOrder name c) = c /\
  trace (cart.GetOrder name c) = [DbGet (data.OrderPrefix +:+ name)] /\
  (forall e, cache.fault (cart.db c) = Some e ->
     result (cart.GetOrder name c) = (None, Some e)) /\
  (cache.fault (cart.db c) = None ->
   json.lenIsZero
     (default json.Nil (cache.kv (cart.db c) !! (data.OrderPrefix +:+ name))) = true ->
   result (cart.GetOrder name c) = (None, Some ErrOrderNotFound)) /\
  (cache.fault (cart.db c) = None ->
   cache.kv (cart.db c) !! (data.OrderPrefix +:+ name) = Some json.Malformed ->
   exists err,
     result (cart.GetOrder name c) =
       (Some {| dawg.OrderName := name;
                dawg.Address := Some (cart.finderAddress (cart.finder c));
                dawg.ServiceMethod := ""; dawg.Products := [] |}, Some err)) /\
  (fst (result (cart.GetOrder name c)) = None ->
   snd (result (cart.GetOrder name c)) <> None).
Proof.
  rewrite GetOrder_run. unfold final, trace, result, cache.Get. simpl.
  split; [reflexivity|]. split; [reflexivity|].
  split; [|split; [|split]].
  - intros e Hf. now rewrite Hf.
  - intros Hf Hz. rewrite Hf, Hz. reflexivity.
  - intros Hf Hk. rewrite Hf, Hk. simpl. eexists.
    now destruct (cart.finderAddress (cart.finder c)).
  - destruct (cache.fault (cart.db c)); simpl; [discriminate|].
    destruct (json.lenIsZero _); simpl; [discriminate|].
    destruct (json.Unmarshal _ _) as [order err]. simpl. discriminate.
Qed.

Lemma GetOrder_outcomes_witness :
  result (cart.GetOrder "pizza2" sample.cartSaved) = (None, Some ErrOrderNotFound) /\
  exists err,
    result (cart.GetOrder "" (cart.setDb sample.cart0
              {| cache.kv := {[ "user_order_" := json.Malformed ]};
                 cache.stamps := ∅; cache.fault := None |})) =
      (Some {| dawg.OrderName := ""; dawg.Address := Some sample.homeB;
               dawg.ServiceMethod := ""; dawg.Products := [] |}, Some err).
Proof.
  split.
  - destruct (GetOrder_outcomes sample.cartSaved "pizza2") as (_ & _ & _ & H & _).
    apply H; vm_compute; reflexivity.
  - destruct (GetOrder_outcomes
                (cart.setDb sample.cart0
                   {| cache.kv := {[ "user_order_" := json.Malformed ]};
                      cache.stamps := ∅; cache.fault := None |}) "")
      as (_ & _ & _ & _ & H & _).
    apply H; vm_compute; reflexivity.
Defined.

(** X8. [SetCurrentOrder] takes over whatever [GetOrder] returns, error or
    not.  When the order is not found the current order becomes nil, also
    when the cart was working on an order before, and the next [AddToppings]
    fails with [ErrNoCurrentOrder].  When the stored bytes are no JSON text
    the error is returned and the current order is the blank order with the
    requested name. *)
Theorem SetCurrentOrder_failure (c : cart.Cart) (name : string) :
  cache.fault (cart.db c) = None ->
  (json.lenIsZero
     (default json.Nil (cache.kv (cart.db c) !! (data.OrderPrefix +:+ name))) = true ->
   cart.SetCurrentOrder name c =
     (Some ErrOrderNotFound, cart.setCurrentOrder c None,
      [DbGet (data.OrderPrefix +:+ name)]) /\
   forall product toppings,
     result (cart.AddToppings product toppings
               (final (cart.SetCurrentOrder name c))) = Some ErrNoCurrentOrder) /\
  (cache.kv (cart.db c) !! (data.OrderPrefix +:+ name) = Some json.Malformed ->
   exists err,
     result (cart.SetCurrentOrder name c) = Some err /\
     cart.CurrentOrder (final (cart.SetCurrentOrder name c)) =
       Some {| dawg.OrderName := name;
               dawg.Address := Some (cart.finderAddress (cart.finder c));
               dawg.ServiceMethod := ""; dawg.Products := [] |}).
Proof.
  intros Hf.
  unfold cart.SetCurrentOrder. rewrite bind_run, GetOrder_run.
  unfold cache.Get. rewrite Hf. split.
  - intros Hz. rewrite Hz. simpl. split; [reflexivity|].
    intros product toppings. reflexivity.
  - intros Hk. rewrite Hk. simpl. eexists. split; [reflexivity|].
    unfold final. simpl. now destruct (cart.finderAddress (cart.finder c)).
Qed.

Lemma SetCurrentOrder_failure_witness :
  cart.CurrentOrder sample.cart1 = Some sample.order1 /\
  cart.SetCurrentOrder "pizza2" sample.cart1 =
    (Some ErrOrderNotFound, cart.setCurrentOrder sample.cart1 None,
     [DbGet "user_order_pizza2"]).
Proof.
  split; [reflexivity|].
  destruct (SetCurrentOrder_failure sample.cart1 "pizza2" eq_refl) as [H _].
  apply H. vm_compute. reflexivity.
Defined.




Lemma SaveOrder_kv (o : dawg.Order) (db : cache.DataBase) :
  cache.fault db = None ->
  fst (data.SaveOrder o db) =
    cache.setKv db (<[data.OrderPrefix +:+ dawg.Name o := fst (json.Marshal o)]>
                      (cache.kv db)).
Proof.
  intros Hf. unfold data.SaveOrder, cache.Put. simpl. now rewrite Hf.
Qed.

(** What the loaders return depends on the database only through its fault
    and the bytes under the one key. *)
Lemma data_GetOrder_ext (db db' : cache.DataBase) (name : string) :
  cache.fault db = cache.fault db' ->
  cache.kv db !! (data.OrderPrefix +:+ name) =
    cache.kv db' !! (data.OrderPrefix +:+ name) ->
  data.GetOrder name db = data.GetOrder name db'.
Proof. intros Hf Hk. unfold data.GetOrder, cache.Get. now rewrite Hf, Hk. Qed.

Lemma cart_GetOrder_ext (c c' : cart.Cart) (name : string) :
  cart.finder c = cart.finder c' ->
  cache.fault (cart.db c) = cache.fault (cart.db c') ->
  cache.kv (cart.db c) !! (data.OrderPrefix +:+ name) =
    cache.kv (cart.db c') !! (data.OrderPrefix +:+ name) ->
  result (cart.GetOrder name c) = result (cart.GetOrder name c').
Proof.
  intros Hfi Hf Hk. rewrite !GetOrder_run. unfold result, cache.Get. simpl.
  now rewrite Hfi, Hf, Hk.
Qed.

(** X10. Saving an order touches its own key only.  Every other name loads
    as before, with both loaders; and a second save under the same name
    replaces the first without a trace. *)
Theorem SaveOrder_frame (o : dawg.Order) (c : cart.Cart) (name : string) :
  cache.fault (cart.db c) = None ->
  (name <> dawg.Name o ->
   data.GetOrder name (fst (data.SaveOrder o (cart.db c))) =
     data.GetOrder name (cart.db c) /\
   result (cart.GetOrder name (cart.setDb c (fst (data.SaveOrder o (cart.db c))))) =
     result (cart.GetOrder name c)) /\
  (forall o2, dawg.Name o2 = dawg.Name o ->
   fst (data.SaveOrder o2 (fst (data.SaveOrder o (cart.db c)))) =
     fst (data.SaveOrder o2 (cart.db c))).
Proof.
  intros Hf. split.
  - intros Hne. rewrite SaveOrder_kv by assumption.
    assert (Hk : <[data.OrderPrefix +:+ dawg.Name o := fst (json.Marshal o)]>
                   (cache.kv (cart.db c)) !! (data.OrderPrefix +:+ name) =
                 cache.kv (cart.db c) !! (data.OrderPrefix +:+ name)).
    { apply lookup_insert_ne. apply OrderPrefix_key_ne. congruence. }
    split.
    + apply data_GetOrder_ext; [reflexivity|exact Hk].
    + apply cart_GetOrder_ext; [reflexivity|reflexivity|exact Hk].
  - intros o2 Hn. rewrite (SaveOrder_kv o) by assumption.
    rewrite !SaveOrder_kv by assumption.
    unfold cache.setKv. cbn [cache.kv cache.stamps cache.fault]. rewrite Hn.
    now rewrite insert_insert_eq.
Qed.

Lemma SaveOrder_frame_witness :
  data.GetOrder "pizza2" (fst (data.SaveOrder sample.order1 sample.emptyDb)) =
    data.GetOrder "pizza2" sample.emptyDb /\
  fst (data.SaveOrder (dawg.setProducts sample.order1 [])
         (fst (data.SaveOrder sample.order1 sample.emptyDb))) =
    fst (data.SaveOrder (dawg.setProducts sample.order1 []) sample.emptyDb).
Proof.
  destruct (SaveOrder_frame sample.order1 sample.cart0 "pizza2" eq_refl) as [H1 H2].
  split.
  - apply H1. discriminate.
  - apply (H2 (dawg.setProducts sample.order1 [])). reflexivity.
Defined.

(** X11. After [DeleteOrder(name)] on a database that works the order is
    gone: [GetOrder(name)] gives [ErrOrderNotFound].  Every other name loads
    as before, and deleting a name that is not stored returns no error and
    leaves the cart as it was. *)
Theorem DeleteOrder_then (c : cart.Cart) (name : string) :
  cache.fault (cart.db c) = None ->
  result (cart.DeleteOrder name c) = None /\
  trace (cart.DeleteOrder name c) = [DbDelete (data.OrderPrefix +:+ name)] /\
  result (cart.GetOrder name (final (cart.DeleteOrder name c))) =
    (None, Some ErrOrderNotFound) /\
  (forall other, other <> name ->
   result (cart.GetOrder other (final (cart.DeleteOrder name c))) =
     result (cart.GetOrder other c)) /\
  (cache.kv (cart.db c) !! (data.OrderPrefix +:+ name) = None ->
   final (cart.DeleteOrder name c) = c).
Proof.
  intros Hf.
  assert (Hrun : cart.DeleteOrder name c =
            (None, cart.setDb c
                     (cache.setKv (cart.db c)
                        (delete (data.OrderPrefix +:+ name) (cache.kv (cart.db c)))),
             [DbDelete (data.OrderPrefix +:+ name)])).
  { unfold cart.DeleteOrder, mbind, M_bind, emit, get, put, mret, M_ret, cache.Delete.
    now rewrite Hf. }
  rewrite Hrun. unfold result at 1, trace at 1, final. simpl.
  split; [reflexivity|]. split; [reflexivity|]. split; [|split].
  - rewrite GetOrder_run. unfold result, cache.Get.
    cbn [cart.db cart.setDb cache.kv cache.setKv cache.fault fst snd].
    now rewrite Hf, lookup_delete_eq.
  - intros other Hne.
    apply cart_GetOrder_ext; [reflexivity|reflexivity|].
    cbn [cart.db cart.setDb cache.kv cache.setKv].
    apply lookup_delete_ne. apply OrderPrefix_key_ne. congruence.
  - intros Hk. rewrite delete_id by assumption.
    destruct c as [mc [kv st f] fi co ou]. reflexivity.
Qed.

Lemma DeleteOrder_then_witness :
  result (cart.GetOrder "pizza1" sample.cartSaved) = (Some sample.order1, None) /\
  result (cart.DeleteOrder "pizza1" sample.cartSaved) = None /\
  result (cart.GetOrder "pizza1" (final (cart.DeleteOrder "pizza1" sample.cartSaved))) =
    (None, Some ErrOrderNotFound).
Proof.
  split; [reflexivity|].
  destruct (DeleteOrder_then sample.cartSaved "pizza1" eq_refl) as (H1 & _ & H3 & _).
  split; assumption.
Defined.

(** X12. The two loaders succeed on the same stored bytes, and then agree on
    the name, the service method and the products of the order; they can
    differ in the address only. *)
Theorem loaders_agree (c : cart.Cart) (name : string) :
  (snd (data.GetOrder name (cart.db c)) = None <->
   snd (result (cart.GetOrder name c)) = None) /\
  (forall o1 o2,
     data.GetOrder name (cart.db c) = (Some o1, None) ->
     result (cart.GetOrder name c) = (Some o2, None) ->
     dawg.Name o1 = name /\ dawg.Name o2 = name /\
     dawg.ServiceMethod o1 = dawg.ServiceMethod o2 /\
     dawg.Products o1 = dawg.Products o2).
Proof.
  rewrite GetOrder_run. unfold data.GetOrder, result, cache.Get. simpl.
  destruct (cache.fault (cart.db c)) as [e|]; simpl.
  { split; [split; discriminate|]. intros o1 o2 [=]. }
  destruct (cache.kv (cart.db c) !! (data.OrderPrefix +:+ name)) as [[| | |d]|];
    simpl; try (split; [split; discriminate|]; intros o1 o2 [=]).
  split; [split; reflexivity|].
  intros o1 o2 [= <-] [= <-]. simpl. auto.
Qed.

Lemma loaders_agree_witness :
  dawg.Name sample.order1 = "pizza1" /\ dawg.Name sample.order1 = "pizza1" /\
  dawg.ServiceMethod sample.order1 = dawg.ServiceMethod sample.order1 /\
  dawg.Products sample.order1 = dawg.Products sample.order1.
Proof.
  destruct (loaders_agree sample.cartSaved "pizza1") as [_ H].
  apply (H sample.order1 sample.order1); reflexivity.
Defined.

(** ** Listing and printing the saved orders *)

Lemma ListOrders_run (c : cart.Cart) :
  cache.fault (cart.db c) = None ->
  cart.ListOrders c =
    ((foldl cart.collectName [] (fst <$> map_to_list (cache.kv (cart.db c))), None),
     c, [DbMap]).
Proof.
  intros Hf.
  unfold cart.ListOrders, mbind, M_bind, emit, get, mret, M_ret, cache.Map.
  now rewrite Hf.
Qed.

Lemma collectName_length (ks acc : list string) :
  length (foldl cart.collectName acc ks) =
  length acc +
  length (filter (fun k => strings.HasPrefix k data.OrderPrefix = true) ks).
Proof.
  revert acc. induction ks as [|k ks IH]; intros acc; simpl; [lia|].
  rewrite IH, filter_cons. unfold cart.collectName.
  destruct (strings.HasPrefix k data.OrderPrefix) eqn:Hp.
  - rewrite decide_True by reflexivity. rewrite length_app. simpl. lia.
  - rewrite decide_False by discriminate. lia.
Qed.

(** The keys that pass a test, counted in the enumeration and in the map. *)
Lemma keys_filter_size {A} (P : string -> bool) (m : gmap string A) :
  length (filter (fun k => P k = true) (fst <$> map_to_list m)) =
  size (filter (fun kv : string * A => P kv.1 = true) m).
Proof.
  induction m as [|i x m Hi Hfirst IH] using map_first_key_ind.
  - now rewrite map_to_list_empty, map_filter_empty, map_size_empty.
  - rewrite map_to_list_insert_first_key by assumption.
    rewrite fmap_cons, filter_cons. simpl.
    destruct (P i) eqn:HP.
    + rewrite decide_True by reflexivity.
      rewrite map_filter_insert_True by exact HP.
      rewrite map_size_insert_None; [simpl; now rewrite IH|].
      apply map_lookup_filter_None. left. exact Hi.
    + rewrite decide_False by discriminate.
      rewrite map_filter_insert_False by (simpl; congruence).
      rewrite delete_id by exact Hi. exact IH.
Qed.

(** X13. [ListOrders] returns one name for each key that begins with the
    prefix, no more and no fewer, so two keys whose names come out the same
    are listed twice; and such keys exist: the orders saved as [n] and as
    "user_order_" followed by [n] are both listed as [n] stripped. *)
Theorem ListOrders_count (c : cart.Cart) :
  cache.fault (cart.db c) = None ->
  length (fst (result (cart.ListOrders c))) =
    size (filter (fun kv : string * json.Bytes =>
                    strings.HasPrefix kv.1 data.OrderPrefix = true)
            (cache.kv (cart.db c))) /\
  (forall n,
     strings.ReplaceAll (data.OrderPrefix +:+ (data.OrderPrefix +:+ n))
       data.OrderPrefix "" =
     strings.ReplaceAll (data.OrderPrefix +:+ n) data.OrderPrefix "").
Proof.
  intros Hf. split.
  - rewrite ListOrders_run by assumption. unfold result. simpl.
    rewrite collectName_length. simpl.
    apply (keys_filter_size (fun k => strings.HasPrefix k data.OrderPrefix)).
  - intros n.
    now rewrite (ReplaceAll_occurrence data.OrderPrefix "" (data.OrderPrefix +:+ n))
      by apply OrderPrefix_not_empty.
Qed.

Lemma ListOrders_count_witness :
  length (fst (result (cart.ListOrders sample.cartList))) = 2 /\
  size (filter (fun kv : string * json.Bytes =>
                  strings.HasPrefix kv.1 data.OrderPrefix = true)
          (cache.kv (cart.db sample.cartList))) = 2.
Proof.
  destruct (ListOrders_count sample.cartList eq_refl) as [H _].
  split; [vm_compute; reflexivity|].
  rewrite <- H. vm_compute. reflexivity.
Defined.

Lemma collectOrder_elem (ks acc : list string) (name : string) :
  name ∈ foldl data.collectOrder acc ks <->
  name ∈ acc \/
  exists k, k ∈ ks /\ strings.Contains k data.OrderPrefix = true /\
            name = strings.ReplaceAll k data.OrderPrefix "".
Proof.
  revert acc. induction ks as [|k ks IH]; intros acc; simpl.
  - split; [auto|]. intros [H|(k & Hk & _)]; [exact H|].
    now apply elem_of_nil in Hk.
  - rewrite IH. unfold data.collectOrder.
    destruct (strings.Contains k data.OrderPrefix) eqn:Hp.
    + rewrite elem_of_app, list_elem_of_singleton. split.
      * intros [[H | ->] | (k' & Hk' & Hp' & ->)]; auto.
        -- right. exists k. split; [apply elem_of_cons; auto|auto].
        -- right. exists k'. split; [apply elem_of_cons; auto|auto].
      * intros [H|(k' & Hk' & Hp' & ->)]; auto.
        apply elem_of_cons in Hk' as [ -> | Hk']; auto.
        right. eauto.
    + split.
      * intros [H|(k' & Hk' & Hp' & ->)]; auto.
        right. exists k'. split; [apply elem_of_cons; auto|auto].
      * intros [H|(k' & Hk' & Hp' & ->)]; auto.
        apply elem_of_cons in Hk' as [ -> | Hk']; [congruence|].
        right. eauto.
Qed.

Lemma HasPrefix_Contains (s p : string) :
  strings.HasPrefix s p = true -> strings.Contains s p = true.
Proof.
  unfold strings.HasPrefix. intros H.
  destruct s; cbn [strings.Contains]; rewrite H; reflexivity.
Qed.

Lemma PrintOrders_run (db : cache.DataBase) :
  cache.fault db = None ->
  data.PrintOrders db =
    (let orders := foldl data.collectOrder [] (fst <$> map_to_list (cache.kv db)) in
     if (length orders <? 1)%nat then ["No orders saved."]
     else "Your Orders:" :: ((fun o => "  " +:+ o) <$> orders), None).
Proof.
  intros Hf. unfold data.PrintOrders, cache.Map. rewrite Hf.
  cbv zeta. now destruct (length _ <? 1)%nat.
Qed.

(** X14. [data.PrintOrders] looks for the prefix anywhere in the key, where
    [Cart.ListOrders] asks for it at the start: every name the cart lists is
    printed, on a line of its own behind two blanks.  "No orders saved." is
    all that is printed exactly when no key holds the prefix.  On a failing
    database nothing is printed and the failure is returned. *)
Theorem PrintOrders_lines (c : cart.Cart) :
  (cache.fault (cart.db c) = None ->
   snd (data.PrintOrders (cart.db c)) = None /\
   (forall name, name ∈ fst (result (cart.ListOrders c)) ->
      ("  " +:+ name) ∈ fst (data.PrintOrders (cart.db c))) /\
   (fst (data.PrintOrders (cart.db c)) = ["No orders saved."] <->
    forall k, is_Some (cache.kv (cart.db c) !! k) ->
              strings.Contains k data.OrderPrefix = false)) /\
  (forall e, cache.fault (cart.db c) = Some e ->
   data.PrintOrders (cart.db c) = ([], Some e)).
Proof.
  split.
  - intros Hf. rewrite PrintOrders_run, ListOrders_run by assumption.
    unfold result. cbn [fst snd]. cbv zeta.
    set (orders := foldl data.collectOrder []
                     (fst <$> map_to_list (cache.kv (cart.db c)))).
    assert (Hin : forall name,
      name ∈ foldl cart.collectName [] (fst <$> map_to_list (cache.kv (cart.db c))) ->
      name ∈ orders).
    { intros name. unfold orders. rewrite collectName_elem, collectOrder_elem.
      intros [H|(k & Hk & Hp & ->)]; [now left|].
      right. exists k. split; [exact Hk|]. split; [|reflexivity].
      now apply HasPrefix_Contains. }
    assert (Hnil : orders = [] <->
      forall k, is_Some (cache.kv (cart.db c) !! k) ->
                strings.Contains k data.OrderPrefix = false).
    { split.
      - intros Hn k Hk.
        destruct (strings.Contains k data.OrderPrefix) eqn:E; [|reflexivity].
        assert (Hx : strings.ReplaceAll k data.OrderPrefix "" ∈ orders).
        { unfold orders. apply collectOrder_elem. right. exists k.
          split; [now apply keys_elem|auto]. }
        rewrite Hn in Hx. now apply elem_of_nil in Hx.
      - intros Hall. apply elem_of_nil_inv. intros x Hx.
        unfold orders in Hx. apply collectOrder_elem in Hx
          as [Hx|(k & Hk & Hp & _)]; [now apply elem_of_nil in Hx|].
        apply keys_elem in Hk. rewrite (Hall k Hk) in Hp. discriminate. }
    split; [reflexivity|]. split.
    + intros name Hname. apply Hin in Hname.
      destruct orders as [|o1 os]; [now apply elem_of_nil in Hname|].
      simpl. apply elem_of_cons. right.
      apply (list_elem_of_fmap_2 (fun o => "  " +:+ o)) in Hname. exact Hname.
    + rewrite <- Hnil. destruct orders as [|o1 os]; simpl.
      * split; reflexivity.
      * split; discriminate.
  - intros e Hf. unfold data.PrintOrders, cache.Map. now rewrite Hf.
Qed.

Lemma PrintOrders_lines_witness :
  snd (data.PrintOrders (cart.db sample.cartList)) = None /\
  ("  " +:+ "my_x") ∈ fst (data.PrintOrders (cart.db sample.cartList)).
Proof.
  destruct (PrintOrders_lines sample.cartList) as [H _].
  destruct (H eq_refl) as (H1 & H2 & _).
  split; [exact H1|]. apply H2.
  replace (fst (result (cart.ListOrders sample.cartList))) with ["my_x"; "pizza1"]
    by (vm_compute; reflexivity).
  apply elem_of_cons. now left.
Defined.



(** ** Validating orders *)

(** X16. [Validate] on a cart with a current order asks the ordering API once
    and changes nothing but the output.  A warning counts as success: nil is
    returned and only the "validating" line is written.  In every other case
    the verdict of the API is returned as it is, and "Order is ok." is
    written behind the "validating" line, also when the verdict is an
    error. *)
Theorem Validate_outcomes (W : cart.World) (c : cart.Cart) (o : dawg.Order) :
  cart.CurrentOrder c = Some o ->
  let line := "validating order '" +:+ dawg.Name o +:+ "'..." in
  (dawg.IsWarning (cart.validate W o) = true ->
   cart.Validate W c =
     (None, cart.setOut c (cart.out c ++ [line]),
      [OutWrite line; ApiValidate (dawg.Name o)])) /\
  (dawg.IsWarning (cart.validate W o) = false ->
   cart.Validate W c =
     (cart.validate W o, cart.setOut c (cart.out c ++ [line; "Order is ok."]),
      [OutWrite line; ApiValidate (dawg.Name o); OutWrite "Order is ok."])).
Proof.
  intros Ho line.
  unfold cart.Validate, cart.Fprint, mbind, M_bind, emit, get, put, mret, M_ret.
  rewrite Ho. simpl. split; intros Hw; rewrite Hw; simpl.
  - reflexivity.
  - unfold cart.setOut. simpl. now rewrite <- app_assoc.
Qed.

Lemma Validate_outcomes_witness :
  cart.Validate
    {| cart.now := 0; cart.fetchMenu := (sample.menu, None);
       cart.validate := fun _ => Some (ErrWarning "check the address") |}
    sample.cart1 =
    (None, cart.setOut sample.cart1 ["validating order 'pizza1'..."],
     [OutWrite "validating order 'pizza1'..."; ApiValidate "pizza1"]) /\
  cart.Validate
    {| cart.now := 0; cart.fetchMenu := (sample.menu, None);
       cart.validate := fun _ => Some (ErrCollaborator "store closed") |}
    sample.cart1 =
    (Some (ErrCollaborator "store closed"),
     cart.setOut sample.cart1 ["validating order 'pizza1'..."; "Order is ok."],
     [OutWrite "validating order 'pizza1'..."; ApiValidate "pizza1";
      OutWrite "Order is ok."]).
Proof.
  split.
  - apply (Validate_outcomes
             {| cart.now := 0; cart.fetchMenu := (sample.menu, None);
                cart.validate := fun _ => Some (ErrWarning "check the address") |}
             sample.cart1 sample.order1 eq_refl).
    reflexivity.
  - apply (Validate_outcomes
             {| cart.now := 0; cart.fetchMenu := (sample.menu, None);
                cart.validate := fun _ => Some (ErrCollaborator "store closed") |}
             sample.cart1 sample.order1 eq_refl).
    reflexivity.
Defined.

Lemma ValidateOrder_run (W : cart.World) (c : cart.Cart) (name : string) :
  cart.ValidateOrder W name c =
    match result (cart.GetOrder name c) with
    | (_, Some err) => (Some err, c, [DbGet (data.OrderPrefix +:+ name)])
    | (None, None) => (None, c, [DbGet (data.OrderPrefix +:+ name)])
    | (Some o, None) =>
        (if dawg.IsWarning (cart.validate W o) then None else cart.validate W o,
         c, [DbGet (data.OrderPrefix +:+ name); ApiValidate (dawg.Name o)])
    end.
Proof.
  unfold cart.ValidateOrder. rewrite bind_run, GetOrder_run.
  unfold result. cbn [fst snd].
  destruct (match cache.Get (cart.db c) (data.OrderPrefix +:+ name) with
            | (_, Some err) => (None, Some err)
            | (raw, None) => _ end) as [[o|] [err|]]; try reflexivity.
  unfold mbind, M_bind, emit, mret, M_ret.
  now destruct (dawg.IsWarning (cart.validate W o)).
Qed.

(** X17. [ValidateOrder] never changes the cart and never writes.  When the
    order cannot be loaded it returns the error of the loading and does not
    ask the ordering API; when it is loaded the API is asked once, about the
    loaded order, and its verdict is returned, a warning as nil. *)
Theorem ValidateOrder_outcomes (W : cart.World) (c : cart.Cart) (name : string) :
  final (cart.ValidateOrder W name c) = c /\
  (forall line, OutWrite line ∉ trace (cart.ValidateOrder W name c)) /\
  (forall err, snd (result (cart.GetOrder name c)) = Some err ->
     cart.ValidateOrder W name c =
       (Some err, c, [DbGet (data.OrderPrefix +:+ name)])) /\
  (forall o, result (cart.GetOrder name c) = (Some o, None) ->
     cart.ValidateOrder W name c =
       (if dawg.IsWarning (cart.validate W o) then None else cart.validate W o,
        c, [DbGet (data.OrderPrefix +:+ name); ApiValidate (dawg.Name o)])).
Proof.
  rewrite ValidateOrder_run.
  destruct (result (cart.GetOrder name c)) as [[o|] [err|]];
    unfold final, trace; cbn [fst snd];
    (split; [reflexivity|]); (split; [|split]).
  all: try (intros line; in_trace; intuition discriminate).
  all: try (intros e [= <-]; reflexivity).
  all: try (intros e [=]; fail).
  all: try (intros o' [=]; fail).
Qed.

Lemma ValidateOrder_outcomes_witness :
  cart.ValidateOrder sample.world "pizza2" sample.cartSaved =
    (Some ErrOrderNotFound, sample.cartSaved, [DbGet "user_order_pizza2"]) /\
  cart.ValidateOrder sample.world "pizza1" sample.cartSaved =
    (None, sample.cartSaved, [DbGet "user_order_pizza1"; ApiValidate "pizza1"]).
Proof.
  split.
  - destruct (ValidateOrder_outcomes sample.world sample.cartSaved "pizza2")
      as (_ & _ & H & _).
    apply H. reflexivity.
  - destruct (ValidateOrder_outcomes sample.world sample.cartSaved "pizza1")
      as (_ & _ & _ & H).
    apply (H sample.order1). reflexivity.
Defined.

(** ** The older cart command *)

(** X18. The topping removal of the older cart command edits one item at
    most: the first that carries the topping or has the product code.  That
    item loses the topping and nothing else; every item before and behind it
    stays as it is, also a later item with the product code that carries the
    topping.  When no item carries the topping or has the code, nothing
    changes. *)
Theorem removeTopping_first (before after : list dawg.OrderProduct)
    (p : dawg.OrderProduct) (remove product : string) :
  Forall (fun q => cmd.removesFrom q remove product = false) before ->
  cmd.removeTopping before remove product = before /\
  (cmd.removesFrom p remove product = true ->
   cmd.removeTopping (before ++ p :: after) remove product =
     before ++ spec.withOpts p (delete remove (dawg.Opts p)) :: after).
Proof.
  induction 1 as [|q before Hq _ [IH1 IH2]]; simpl.
  - split; [reflexivity|]. intros Hp. now rewrite Hp.
  - rewrite Hq. split; [now rewrite IH1|].
    intros Hp. now rewrite (IH2 Hp).
Qed.

Lemma removeTopping_first_witness :
  cmd.removeTopping ([] ++ sample.smallP :: [sample.pizzaP]) "P" "14SCREEN" =
    [] ++ spec.withOpts sample.smallP (delete "P" (dawg.Opts sample.smallP))
       :: [sample.pizzaP].
Proof.
  assert (H : cmd.removesFrom sample.smallP "P" "14SCREEN" = true)
    by (vm_compute; reflexivity).
  exact (proj2 (removeTopping_first [] [sample.pizzaP] sample.smallP
                  "P" "14SCREEN" (List.Forall_nil _)) H).
Defined.




(** The add command on the sample store: a missing name and a code the menu
    does not have are refused, and nothing is saved. *)
Example addOrderRun_sample :
  cmd.addOrderRun sample.store "" [] ["14SCREEN"] [] sample.emptyDb =
    (sample.emptyDb, Some cmd.NoOrderName) /\
  cmd.addOrderRun sample.store "friday" [] ["14SCREEN"; "10THIN"] [] sample.emptyDb =
    (sample.emptyDb, Some (cmd.Passed (ErrVariantNotFound "10THIN"))).
Proof. repeat split; vm_compute; reflexivity. Qed.

(** ** Edits of the current order and the stored orders *)

Lemma UpdateTS_sameStore (W : cart.World) (key : string) (c : cart.Cart) :
  spec.sameStore c (final (cart.UpdateTS W key c)).
Proof.
  unfold cart.UpdateTS, mbind, M_bind, emit, get, put, mret, M_ret, final, spec.sameStore.
  destruct (cache.fault (cart.db c)) eqn:Hf; simpl; [rewrite Hf; auto|].
  destruct (cart.stale W c key); simpl; [|rewrite Hf; auto].
  destruct (cart.fetchMenu W) as [m [e'|]]; simpl; rewrite Hf; auto.
Qed.

Lemma Menu_sameStore (W : cart.World) (c : cart.Cart) :
  spec.sameStore c (final (cart.Menu W c)).
Proof.
  unfold cart.Menu, mbind, M_bind, emit, get, put, mret, M_ret, final, spec.sameStore.
  destruct (cart.cached (cart.menuCacher c)); simpl; [auto|].
  destruct (cart.fetchMenu W) as [m [e|]]; simpl; auto.
Qed.

Lemma sameStore_GetOrder (c c' : cart.Cart) (name : string) :
  spec.sameStore c c' ->
  result (cart.GetOrder name c') = result (cart.GetOrder name c).
Proof.
  intros (Hfi & Hf & Hk). apply cart_GetOrder_ext; [assumption..|].
  now rewrite Hk.
Qed.

(** X20. Adding toppings or products works on the current order in memory
    and never on the stored orders: after [AddToppings] or [AddProducts],
    whether they succeed or fail, every name loads from the database what it
    loaded before. *)
Theorem edits_not_stored (W : cart.World) (c : cart.Cart) (name product : string)
    (toppings products : list string) :
  result (cart.GetOrder name (final (cart.AddToppings product toppings c))) =
    result (cart.GetOrder name c) /\
  result (cart.GetOrder name (final (cart.AddProducts W products c))) =
    result (cart.GetOrder name c).
Proof.
  split; apply sameStore_GetOrder.
  - destruct (cart.CurrentOrder c) as [o|] eqn:Ho.
    + rewrite (AddToppings_run c o product toppings Ho).
      unfold final, spec.sameStore. simpl. auto.
    + unfold cart.AddToppings, mbind, M_bind, get, mret, M_ret, final, spec.sameStore.
      rewrite Ho. simpl. auto.
  - destruct (cart.CurrentOrder c) as [o|] eqn:Ho.
    + rewrite (AddProducts_run W c o products Ho).
      pose proof (UpdateTS_sameStore W "menu" c) as H1.
      destruct (cart.UpdateTS W "menu" c) as [[[e|] c1] t1]; unfold final in *;
        simpl in *; [exact H1|].
      pose proof (Menu_sameStore W c1) as H2.
      destruct (cart.Menu W c1) as [[menu c2] t2]. unfold final in H2. simpl in H2.
      unfold cart.onOrder.
      destruct (cart.addProducts menu products o) as [[r o'] t3]. simpl.
      destruct H1 as (A1 & B1 & C1), H2 as (A2 & B2 & C2).
      unfold spec.sameStore. simpl. repeat split; congruence.
    + unfold cart.AddProducts, mbind, M_bind, get, mret, M_ret, final, spec.sameStore.
      rewrite Ho. simpl. auto.
Qed.
